(** * Frameserve: a shallow embedding of [main.go] and its specification

    The server turns a directory of image files into a slideshow served over
    HTTP.  This development embeds the Go program function by function:
    the path sanitizer ([safeJoin]), the scanner ([scanPhotos]), the ordering
    ([sortPhotos]), the handlers registered on the mux, the security-header
    wrapper and the auth gate, and proves the properties the specification
    states about them.

    Go strings are byte strings; they are modelled by [string].  The functions
    of Go's standard library the program calls ([strings], [path/filepath],
    [net/http], [sort], [os]) are modelled in the modules below, on the Unix
    build the Dockerfile produces ([GOOS=linux]). *)

From Stdlib Require Import List Bool Arith ZArith Lia Ascii String DecimalString.
From Stdlib Require Import Permutation Sorted.
Import ListNotations.

Set Warnings "-register-all".

Local Open Scope string_scope.
Local Open Scope list_scope.

(** ** Errors

    Go functions returning [(T, error)] return a [result]. *)

Inductive result (A : Type) : Type :=
| Ok (a : A)
| Err (msg : string).
Arguments Ok {A} a.
Arguments Err {A} msg.

Definition bind {A B} (r : result A) (k : A -> result B) : result B :=
  match r with
  | Ok a => k a
  | Err e => Err e
  end.

Notation "x <- r ;; k" := (bind r (fun x => k))
  (at level 61, r at next level, right associativity).

Definition is_ok {A} (r : result A) : bool :=
  match r with Ok _ => true | Err _ => false end.

(** ** Package [strings]

    Strings are read as bytes.  White space is that of [unicode.IsSpace],
    read from the UTF-8 encoding; letter case is that of ASCII: the bytes of
    a multi-byte sequence never change case. *)

Module Strings.

(** The six ASCII white space bytes. *)
Definition isSpace (c : ascii) : bool :=
  match nat_of_ascii c with
  | 9 | 10 | 11 | 12 | 13 | 32 => true
  | _ => false
  end.

(** The encodings of the white space runes above ASCII: U+0085 and U+00A0
    in two bytes; U+1680, U+2000 to U+200A, U+2028, U+2029, U+202F, U+205F
    and U+3000 in three. *)
Definition isSpace2 (c d : ascii) : bool :=
  match nat_of_ascii c, nat_of_ascii d with
  | 194, 133 | 194, 160 => true
  | _, _ => false
  end.

Definition isSpace3 (c d e : ascii) : bool :=
  match nat_of_ascii c, nat_of_ascii d with
  | 225, 154 => Nat.eqb (nat_of_ascii e) 128
  | 226, 128 =>
      let n := nat_of_ascii e in
      ((128 <=? n)%nat && (n <=? 138)%nat)%bool
      || Nat.eqb n 168 || Nat.eqb n 169 || Nat.eqb n 175
  | 226, 129 => Nat.eqb (nat_of_ascii e) 159
  | 227, 128 => Nat.eqb (nat_of_ascii e) 128
  | _, _ => false
  end.

(** [TrimLeft] drops white space runes from the front. *)
Fixpoint TrimLeft (s : string) : string :=
  match s with
  | EmptyString => EmptyString
  | String c r =>
      if isSpace c then TrimLeft r
      else
        match r with
        | EmptyString => s
        | String d r2 =>
            if isSpace2 c d then TrimLeft r2
            else
              match r2 with
              | EmptyString => s
              | String e r3 => if isSpace3 c d e then TrimLeft r3 else s
              end
        end
  end.

(** A string that is one white space rune. *)
Definition isSpaceRune (s : string) : bool :=
  match s with
  | String c EmptyString => isSpace c
  | String c (String d EmptyString) => isSpace2 c d
  | String c (String d (String e EmptyString)) => isSpace3 c d e
  | _ => false
  end.

(** [TrimRight] drops white space runes from the back: once what follows a
    byte is trimmed, the byte and what is kept after it go when together
    they are one white space rune. *)
Fixpoint TrimRight (s : string) : string :=
  match s with
  | String c r =>
      let kept := String c (TrimRight r) in
      if isSpaceRune kept then EmptyString else kept
  | EmptyString => EmptyString
  end.

Definition TrimSpace (s : string) : string := TrimRight (TrimLeft s).

(** [strings.ToLower] on ASCII letters; other bytes are kept. *)
Definition lowerByte (c : ascii) : ascii :=
  let n := nat_of_ascii c in
  if ((65 <=? n)%nat && (n <=? 90)%nat)%bool then ascii_of_nat (n + 32) else c.

Fixpoint ToLower (s : string) : string :=
  match s with
  | String c r => String (lowerByte c) (ToLower r)
  | EmptyString => EmptyString
  end.

(** [strings.EqualFold] on ASCII. *)
Definition EqualFold (a b : string) : bool := ToLower a =? ToLower b.

(** [strings.CutPrefix]: what follows the prefix [p] in [s]. *)
Fixpoint CutPrefix (s p : string) {struct p} : option string :=
  match p with
  | EmptyString => Some s
  | String a p' =>
      match s with
      | String b s' => if Ascii.eqb a b then CutPrefix s' p' else None
      | EmptyString => None
      end
  end.

Definition HasPrefix (s p : string) : bool :=
  match CutPrefix s p with Some _ => true | None => false end.

Definition TrimPrefix (s p : string) : string :=
  match CutPrefix s p with Some rest => rest | None => s end.

Fixpoint Contains (s sub : string) : bool :=
  HasPrefix s sub ||
  match s with
  | String _ r => Contains r sub
  | EmptyString => false
  end.

(** [strings.Split(s, sep)] for a one-byte separator: the fields between
    the separators, never an empty list. *)
Fixpoint Split (sep : ascii) (s : string) : list string :=
  match s with
  | EmptyString => [EmptyString]
  | String c r =>
      if Ascii.eqb c sep then EmptyString :: Split sep r
      else match Split sep r with
           | h :: t => String c h :: t
           | [] => [String c EmptyString]
           end
  end.

(** [strings.SplitN(s, sep, 2)] for a one-byte separator: cut at the first
    separator, if there is one. *)
Fixpoint SplitN2 (sep : ascii) (s : string) : list string :=
  match s with
  | EmptyString => [EmptyString]
  | String c r =>
      if Ascii.eqb c sep then [EmptyString; r]
      else match SplitN2 sep r with
           | h :: t => String c h :: t
           | [] => [String c EmptyString]
           end
  end.

Definition Join (elems : list string) (sep : string) : string :=
  String.concat sep elems.

(** [strings.NewReplacer(...).Replace] for one-byte patterns: every byte is
    replaced by the first pair that matches it. *)
Fixpoint lookupByte (pairs : list (ascii * string)) (c : ascii) : string :=
  match pairs with
  | (k, v) :: rest => if Ascii.eqb c k then v else lookupByte rest c
  | [] => String c EmptyString
  end.

Fixpoint Replace (pairs : list (ascii * string)) (s : string) : string :=
  match s with
  | String c r => lookupByte pairs c ++ Replace pairs r
  | EmptyString => EmptyString
  end.

End Strings.

(** ** Package [path/filepath] (Unix)

    Paths are handled by their elements, the fields between the separators.
    [Clean] follows the four rules of its documentation: multiple separators
    count as one, a [.] element is dropped, an inner [..] is dropped with the
    element before it, and a [..] that begins a rooted path is dropped. *)

Module Filepath.

Definition Separator : ascii := "/"%char.

Definition IsAbs (p : string) : bool :=
  match p with
  | String c _ => Ascii.eqb c Separator
  | EmptyString => false
  end.

(** The elements kept so far are held last first.  A [..] is kept only in
    a path that is not rooted, and only while every element kept so far is
    [..] itself. *)
Definition cleanStep (rooted : bool) (out : list string) (elem : string)
  : list string :=
  if (elem =? "") || (elem =? ".") then out
  else if elem =? ".." then
    match out with
    | last :: before => if last =? ".." then elem :: out else before
    | [] => if rooted then [] else [elem]
    end
  else elem :: out.

Definition cleanElems (rooted : bool) (elems : list string) : list string :=
  rev (fold_left (cleanStep rooted) elems []).

Definition Clean (p : string) : string :=
  if p =? "" then "."
  else
    let rooted := IsAbs p in
    let body := Strings.Join (cleanElems rooted (Strings.Split Separator p)) "/" in
    if rooted then "/" ++ body
    else if body =? "" then "." else body.

(** [Base]: the last element once trailing separators are removed; [.] for
    the empty path and [/] for a path of separators only. *)
Fixpoint lastNonEmpty (rev_elems : list string) : option string :=
  match rev_elems with
  | e :: rest => if e =? "" then lastNonEmpty rest else Some e
  | [] => None
  end.

Definition Base (p : string) : string :=
  if p =? "" then "."
  else match lastNonEmpty (rev (Strings.Split Separator p)) with
       | Some e => e
       | None => "/"
       end.

(** [Ext]: the suffix of the last element that starts at its last dot,
    empty when the last element has no dot. *)
Fixpoint Ext (p : string) : string :=
  match p with
  | EmptyString => EmptyString
  | String c r =>
      match Ext r with
      | EmptyString =>
          if Ascii.eqb c "."%char && negb (Strings.Contains r "/") then p
          else EmptyString
      | e => e
      end
  end.

(** [Join] skips leading empty elements, joins the rest with the separator
    and cleans the result; it is empty when every element is empty. *)
Fixpoint Join (elems : list string) : string :=
  match elems with
  | [] => ""
  | e :: rest => if e =? "" then Join rest else Clean (Strings.Join elems "/")
  end.

(** [Abs] with the working directory [os.Getwd] reports, [None] when it
    fails. *)
Definition Abs (wd : option string) (p : string) : result string :=
  if IsAbs p then Ok (Clean p)
  else match wd with
       | Some d => Ok (Join [d; p])
       | None => Err "getwd"
       end.

(** [Rel]: both paths are cleaned and compared element by element; what is
    left of the base is climbed with [..] elements, what is left of the
    target is appended. *)
Definition elements (p : string) : list string :=
  filter (fun e => negb (e =? "")) (Strings.Split Separator p).

Fixpoint dropCommon (bs ts : list string) : list string * list string :=
  match bs, ts with
  | b :: bs', t :: ts' => if b =? t then dropCommon bs' ts' else (bs, ts)
  | _, _ => (bs, ts)
  end.

Definition Rel (basepath targpath : string) : result string :=
  let base := Clean basepath in
  let targ := Clean targpath in
  if targ =? base then Ok "."
  else
    let base := if base =? "." then "" else base in
    if negb (Bool.eqb (IsAbs base) (IsAbs targ)) then Err "Rel: can't make relative"
    else
      match dropCommon (elements base) (elements targ) with
      | ([], ts) => Ok (Strings.Join ts "/")
      | (b :: bs, []) => Ok (Strings.Join (repeat ".." (List.length (b :: bs))) "/")
      | (b :: bs, t :: ts) =>
          if b =? ".." then Err "Rel: can't make relative"
          else Ok (Strings.Join (repeat ".." (List.length (b :: bs)) ++ t :: ts) "/")
      end.

End Filepath.

(** ** Package [os]

    What the program reads from its environment: the working directory, the
    directory listings, the file metadata and the environment variables.
    [ReadDir] and [Stat] are unrelated functions, so a file listed by the one
    may be missing or be a directory for the other, as when the directory
    changes between the two calls. *)

Module Os.

Record FileInfo := {
  IsDir : bool;
  Size : Z;
  ModTimeUnix : Z  (* [fi.ModTime().Unix()], seconds *)
}.

Record DirEntry := {
  EntryName : string;
  EntryIsDir : bool
}.

Record Env := {
  Getwd : option string;
  ReadDir : string -> result (list DirEntry);
  Stat : string -> result FileInfo;
  Getenv : string -> string  (* empty for a variable that is not set *)
}.

End Os.

(** ** Package [sort]

    [sort.Slice] sorts in place with an algorithm the program does not
    choose.  The program relies on its contract only: the slice is permuted,
    and it ends up in order when [less] is a strict weak ordering; the order
    of equal elements is not specified. *)

Module Sort.

Record StrictWeak {A} (less : A -> A -> bool) : Prop := {
  less_asym : forall x y, less x y = true -> less y x = false;
  less_negtrans :
    forall x y z, less y x = false -> less z y = false -> less z x = false
}.

(** [x] may stand before [y]. *)
Definition inOrder {A} (less : A -> A -> bool) (x y : A) : Prop :=
  less y x = false.

Class Sorter := {
  Slice : forall {A}, (A -> A -> bool) -> list A -> list A
}.

Record Lawful (sorter : Sorter) : Prop := {
  Slice_Permutation :
    forall A (less : A -> A -> bool) l, Permutation l (Slice less l);
  Slice_StronglySorted :
    forall A (less : A -> A -> bool) l,
      StrictWeak less -> StronglySorted (inOrder less) (Slice less l)
}.

(** The insertion sort [sort.Slice] runs on a slice of at most twelve
    elements: each element moves left past the elements it is less than.
    The sorted prefix is held last first. *)
Fixpoint insertLess {A} (less : A -> A -> bool) (x : A) (sorted : list A)
  : list A :=
  match sorted with
  | y :: before => if less x y then y :: insertLess less x before
                   else x :: sorted
  | [] => [x]
  end.

Definition insertionSort {A} (less : A -> A -> bool) (l : list A) : list A :=
  rev (fold_left (fun sorted x => insertLess less x sorted) l []).

Definition insertion : Sorter := {| Slice := @insertionSort |}.

(** The prefix that insertion keeps, last element first: no element is
    less than one that stands after it in this list. *)
Definition descending {A} (less : A -> A -> bool) : list A -> Prop :=
  StronglySorted (fun a b => less a b = false).

End Sort.

(** ** Package [encoding/json]

    The document [json.Encoder] writes is kept as a value; its text form is
    the library's.  A nil slice is written as [null]. *)

Module Json.

Inductive Value :=
| Null
| Number (z : Z)
| Str (s : string)
| Array (items : list Value)
| Object (fields : list (string * Value)).

Fixpoint field (fields : list (string * Value)) (key : string) : option Value :=
  match fields with
  | (k, v) :: rest => if k =? key then Some v else field rest key
  | [] => None
  end.

End Json.

(** ** Package [net/http]

    A handler is a function from the request and the response writer to the
    response writer.  The writer holds the header map the handler edits and,
    once [WriteHeader] has run, the status and the headers that were sent;
    later edits of the header map do not reach the client. *)

Module Http.

(** *** Headers and query values *)

Definition Header := list (string * string).

Fixpoint Get (h : Header) (key : string) : string :=
  match h with
  | (k, v) :: rest => if k =? key then v else Get rest key
  | [] => ""
  end.

Definition Del (h : Header) (key : string) : Header :=
  filter (fun kv => negb (fst kv =? key)) h.

Definition Set_ (h : Header) (key value : string) : Header :=
  (key, value) :: Del h key.

(** [url.Values], in the order of the query string.  [Get] is the first
    value of the key; [Encode] orders the pairs by key and keeps the values
    of one key in their order. *)
Definition Values := list (string * string).

Fixpoint insertByKey (kv : string * string) (sorted : Values) : Values :=
  match sorted with
  | kv' :: rest =>
      if String.leb (fst kv) (fst kv') then kv :: sorted
      else kv' :: insertByKey kv rest
  | [] => [kv]
  end.

Definition Encode (v : Values) : Values :=
  fold_right insertByKey [] v.

Record URL := {
  Path : string;
  RawQuery : Values
}.

Definition Query (u : URL) : Values := RawQuery u.

Inductive SameSite :=
| SameSiteDefaultMode
| SameSiteLaxMode
| SameSiteStrictMode
| SameSiteNoneMode.

Record Cookie := {
  CookieName : string;
  CookieValue : string;
  CookiePath : string;
  MaxAge : Z;
  HttpOnly : bool;
  CookieSameSite : SameSite;
  Secure : bool
}.

Record Request := {
  Method : string;
  Url : URL;
  ReqHeader : Header;
  ReqCookies : list (string * string);  (* the pairs of the Cookie header *)
  TLS : bool                            (* [r.TLS != nil] *)
}.

(** [r.Cookie(name)]: the first cookie of that name. *)
Fixpoint CookieNamed (cookies : list (string * string)) (name : string)
  : option string :=
  match cookies with
  | (n, v) :: rest => if n =? name then Some v else CookieNamed rest name
  | [] => None
  end.

(** *** The response writer *)

Inductive Chunk :=
| Bytes (s : string)        (* bytes the handler wrote *)
| FileBytes (path : string) (* the content of the file at [path] *)
| JsonDoc (doc : Json.Value) (* the text of a JSON document *)
| RedirectNote (code : nat) (* the short HTML note that links to the target *).

Record Sent := {
  Status : nat;
  SentHeader : Header;
  SentCookies : list Cookie;  (* the Set-Cookie lines *)
  Location : option URL       (* the target of a redirect *)
}.

Record ResponseWriter := {
  header : Header;
  cookies : list Cookie;
  location : option URL;
  sent : option Sent;
  body : list Chunk
}.

Definition newWriter : ResponseWriter :=
  {| header := []; cookies := []; location := None; sent := None; body := [] |}.

Definition setHeader (w : ResponseWriter) (key value : string) : ResponseWriter :=
  {| header := Set_ (header w) key value; cookies := cookies w;
     location := location w; sent := sent w; body := body w |}.

Definition SetCookie (w : ResponseWriter) (c : Cookie) : ResponseWriter :=
  {| header := header w; cookies := cookies w ++ [c];
     location := location w; sent := sent w; body := body w |}.

Definition setLocation (w : ResponseWriter) (u : URL) : ResponseWriter :=
  {| header := header w; cookies := cookies w;
     location := Some u; sent := sent w; body := body w |}.

(** Only the first [WriteHeader] counts. *)
Definition WriteHeader (w : ResponseWriter) (code : nat) : ResponseWriter :=
  match sent w with
  | Some _ => w
  | None =>
      {| header := header w; cookies := cookies w; location := location w;
         sent := Some {| Status := code; SentHeader := header w;
                         SentCookies := cookies w; Location := location w |};
         body := body w |}
  end.

(** Writing before [WriteHeader] sends status 200. *)
Definition writeChunk (w : ResponseWriter) (c : Chunk) : ResponseWriter :=
  let w := WriteHeader w 200 in
  {| header := header w; cookies := cookies w; location := location w;
     sent := sent w; body := body w ++ [c] |}.

Definition Write (w : ResponseWriter) (b : string) : ResponseWriter :=
  writeChunk w (Bytes b).

(** What the client receives when the handler returns. *)
Record Response := {
  RespStatus : nat;
  RespHeader : Header;
  RespCookies : list Cookie;
  RespLocation : option URL;
  RespBody : list Chunk
}.

Definition finish (w : ResponseWriter) : Response :=
  let w := WriteHeader w 200 in
  match sent w with
  | Some s => {| RespStatus := Status s; RespHeader := SentHeader s;
                 RespCookies := SentCookies s; RespLocation := Location s;
                 RespBody := body w |}
  | None => {| RespStatus := 200; RespHeader := header w;
               RespCookies := cookies w; RespLocation := location w;
               RespBody := body w |}
  end.

Definition Handler := ResponseWriter -> Request -> ResponseWriter.

(** *** Replies of the library *)

Definition StatusOK := 200%nat.
Definition StatusMovedPermanently := 301%nat.
Definition StatusFound := 302%nat.
Definition StatusUnauthorized := 401%nat.
Definition StatusNotFound := 404%nat.
Definition StatusMethodNotAllowed := 405%nat.
Definition StatusInternalServerError := 500%nat.

Definition MethodGet := "GET".
Definition MethodHead := "HEAD".

(** [http.Error], as of Go 1.22. *)
Definition Error (w : ResponseWriter) (msg : string) (code : nat) : ResponseWriter :=
  let w := setHeader w "Content-Type" "text/plain; charset=utf-8" in
  let w := setHeader w "X-Content-Type-Options" "nosniff" in
  let w := WriteHeader w code in
  Write w (msg ++ String "010"%char "")%string.

Definition NotFound (w : ResponseWriter) (r : Request) : ResponseWriter :=
  Error w "404 page not found" StatusNotFound.

Definition hasKey (h : Header) (key : string) : bool :=
  existsb (fun kv => fst kv =? key) h.

(** [http.Redirect].  The target is kept as a [URL]; its text form, and the
    cleaning [Redirect] applies to the path of a relative target, are the
    library's. *)
Definition Redirect (w : ResponseWriter) (r : Request) (u : URL) (code : nat)
  : ResponseWriter :=
  let hadCT := hasKey (header w) "Content-Type" in
  let w := setLocation w u in
  let w := if negb hadCT && ((Method r =? "GET") || (Method r =? "HEAD"))
           then setHeader w "Content-Type" "text/html; charset=utf-8" else w in
  let w := WriteHeader w code in
  if negb hadCT && (Method r =? "GET") then writeChunk w (RedirectNote code) else w.

(** [http.ServeFile] answers with the bytes of the file.  Conditional and
    range requests and the headers it adds are the library's. *)
Definition ServeFile (w : ResponseWriter) (r : Request) (name : string)
  : ResponseWriter :=
  writeChunk w (FileBytes name).

(** *** [ServeMux]

    The patterns of this program have no method, host or wildcard: a
    pattern that ends in a slash matches the paths it is a prefix of, any
    other pattern matches one path, and the longest matching pattern wins.
    The request path is taken to hold no percent-escaped byte, so that the
    escaped path the mux routes on is the path the handlers read.  The
    request for [*], which the mux answers with status 400, has no path and
    is left out. *)

Definition ServeMux := list (string * Handler).

Definition HandleFunc (mux : ServeMux) (pattern : string) (h : Handler) : ServeMux :=
  mux ++ [(pattern, h)].

Fixpoint HasSuffixSlash (s : string) : bool :=
  match s with
  | String c EmptyString => Ascii.eqb c "/"%char
  | String _ r => HasSuffixSlash r
  | EmptyString => false
  end.

Definition patternMatches (pattern path : string) : bool :=
  if HasSuffixSlash pattern then Strings.HasPrefix path pattern
  else pattern =? path.

Fixpoint matchPath (mux : ServeMux) (path : string) : option (string * Handler) :=
  match mux with
  | (pattern, h) :: rest =>
      let best := matchPath rest path in
      if patternMatches pattern path then
        match best with
        | Some (pattern', _) =>
            if (length pattern' <=? length pattern)%nat then Some (pattern, h)
            else best
        | None => Some (pattern, h)
        end
      else best
  | [] => None
  end.

Definition exactMatch (n : option (string * Handler)) (path : string) : bool :=
  match n with
  | Some (pattern, _) => negb (HasSuffixSlash pattern) || (pattern =? path)
  | None => false
  end.

Definition cleanPath (p : string) : string :=
  if p =? "" then "/"
  else
    let p := if Filepath.IsAbs p then p else ("/" ++ p)%string in
    let np := Filepath.Clean p in
    if HasSuffixSlash p && negb (np =? "/") then
      if (length p =? length np + 1)%nat && Strings.HasPrefix p np then p
      else (np ++ "/")%string
    else np.

(** [matchOrRedirect]: a path that has no handler of its own, while the
    path with a slash added has one, is redirected there. *)
Definition matchOrRedirect (mux : ServeMux) (path : string) (u : option URL)
  : option (string * Handler) * option URL :=
  let n := matchPath mux path in
  match u with
  | Some u =>
      if negb (exactMatch n path) &&
         exactMatch (matchPath mux (path ++ "/")%string) (path ++ "/")%string
      then (None, Some {| Path := (cleanPath (Path u) ++ "/")%string;
                          RawQuery := RawQuery u |})
      else (n, None)
  | None => (n, None)
  end.

Definition RedirectHandler (u : URL) (code : nat) : Handler :=
  fun w r => Redirect w r u code.

Definition findHandler (mux : ServeMux) (r : Request) : Handler :=
  let path := Path (Url r) in
  if Method r =? "CONNECT" then
    match matchOrRedirect mux path (Some (Url r)) with
    | (_, Some u) => RedirectHandler u StatusMovedPermanently
    | (_, None) =>
        match matchOrRedirect mux path None with
        | (Some (_, h), _) => h
        | (None, _) => NotFound
        end
    end
  else
    let cleaned := cleanPath path in
    match matchOrRedirect mux cleaned (Some (Url r)) with
    | (_, Some u) => RedirectHandler u StatusMovedPermanently
    | (n, None) =>
        if negb (cleaned =? path) then
          RedirectHandler {| Path := cleaned; RawQuery := RawQuery (Url r) |}
                          StatusMovedPermanently
        else match n with
             | Some (_, h) => h
             | None => NotFound
             end
    end.

Definition ServeHTTP (mux : ServeMux) : Handler :=
  fun w r => findHandler mux r w r.

End Http.

(** * The program *)

Record Photo := {
  URL : string;
  Name : string;
  Mtime : Z;
  Size : Z
}.

Record PhotosResponse := {
  Photos : list Photo;
  Count : Z
}.

Definition authCookieName : string := "frameserve_auth".

Definition authCookieMaxAgeSeconds : Z := 365 * 24 * 60 * 60.

Definition isAllowedExt (name : string) : bool :=
  let ext := Strings.ToLower (Filepath.Ext name) in
  (ext =? ".jpg") || (ext =? ".jpeg") || (ext =? ".png") || (ext =? ".webp")
  || (ext =? ".gif").

Definition urlPathEscape (s : string) : string :=
  Strings.Replace
    [("%"%char, "%25"); (" "%char, "%20"); ("#"%char, "%23"); ("?"%char, "%3F")] s.

Definition htmlEscape (s : string) : string :=
  Strings.Replace
    [("&"%char, "&amp;"); ("<"%char, "&lt;"); (">"%char, "&gt;");
     ("034"%char, "&quot;"); ("'"%char, "&#39;")] s.

(** [constantTimeEqual]: equal lengths, then [subtle.ConstantTimeCompare],
    which is 1 exactly for equal byte slices. *)
Definition constantTimeEqual (a b : string) : bool :=
  if negb (length a =? length b)%nat then false
  else a =? b.

Definition parseBearer (authz : string) : string :=
  let authz := Strings.TrimSpace authz in
  if authz =? "" then ""
  else
    match Strings.SplitN2 " "%char authz with
    | [scheme; token] =>
        if negb (Strings.ToLower (Strings.TrimSpace scheme) =? "bearer") then ""
        else Strings.TrimSpace token
    | _ => ""
    end.

Definition firstNonEmpty (a b : string) : string :=
  if negb (Strings.TrimSpace a =? "") then a else b.

Definition isProbablyHTTPS (r : Http.Request) : bool :=
  if Http.TLS r then true
  else if Strings.EqualFold (Http.Get (Http.ReqHeader r) "X-Forwarded-Proto") "https"
       then true
       else false.

Definition setAuthCookie (w : Http.ResponseWriter) (r : Http.Request) (token : string)
  : Http.ResponseWriter :=
  let secure := isProbablyHTTPS r in
  Http.SetCookie w
    {| Http.CookieName := authCookieName;
       Http.CookieValue := token;
       Http.CookiePath := "/";
       Http.MaxAge := authCookieMaxAgeSeconds;
       Http.HttpOnly := true;
       Http.CookieSameSite := Http.SameSiteLaxMode;
       Http.Secure := secure |}.

Section Program.

Context {sorter : Sort.Sorter}.

(** The environment of the process, the files embedded at build time
    ([staticFS.ReadFile], [None] for a missing file) and the table of
    [mime.TypeByExtension] (empty for an unknown extension). *)
Variable env : Os.Env.
Variable staticFS : string -> option string.
Variable TypeByExtension : string -> string.

Definition getenv (k def : string) : string :=
  let v := Strings.TrimSpace (Os.Getenv env k) in
  if v =? "" then def else v.

Definition serveEmbeddedFile (w : Http.ResponseWriter) (r : Http.Request)
    (path forcedContentType : string) : Http.ResponseWriter :=
  match staticFS path with
  | None => Http.NotFound w r
  | Some b =>
      let w :=
        if negb (forcedContentType =? "") then
          Http.setHeader w "Content-Type" forcedContentType
        else
          let ext := Strings.ToLower (Filepath.Ext path) in
          let ct := TypeByExtension ext in
          if negb (ct =? "") then Http.setHeader w "Content-Type" ct
          else Http.setHeader w "Content-Type" "application/octet-stream" in
      let w :=
        if Strings.HasPrefix path "static/" && negb (path =? "static/index.html")
           && negb (path =? "static/info.html")
        then Http.setHeader w "Cache-Control" "public, max-age=86400"
        else Http.setHeader w "Cache-Control" "no-store" in
      Http.Write w b
  end.

Definition safeJoin (baseDir fileName : string) : result string :=
  if fileName =? "" then Err "empty name"
  else
    let clean := Filepath.Clean fileName in
    let clean := Filepath.Base clean in
    let joined := Filepath.Join [baseDir; clean] in
    baseAbs <- Filepath.Abs (Os.Getwd env) baseDir ;;
    joinedAbs <- Filepath.Abs (Os.Getwd env) joined ;;
    rel <- Filepath.Rel baseAbs joinedAbs ;;
    if Strings.HasPrefix rel "../" || (rel =? "..")
    then Err "path escapes base dir"
    else Ok joinedAbs.

(** The body of the loop of [scanPhotos]: [photos] with the entry's photo
    appended, or [photos] itself where the loop continues. *)
Definition scanEntry (dir : string) (photos : list Photo) (e : Os.DirEntry)
  : list Photo :=
  if Os.EntryIsDir e then photos
  else
    let name := Os.EntryName e in
    if negb (isAllowedExt name) then photos
    else
      match safeJoin dir name with
      | Err _ => photos
      | Ok fullPath =>
          match Os.Stat env fullPath with
          | Err _ => photos
          | Ok fi =>
              if Os.IsDir fi then photos
              else
                let mtime := Os.ModTimeUnix fi in
                let url := ("/photos/" ++ urlPathEscape name ++ "?v="
                            ++ NilZero.string_of_int (Z.to_int mtime))%string in
                (photos ++ [{| URL := url; Name := name; Mtime := mtime;
                               Size := Os.Size fi |}])%list
          end
      end.

Definition scanPhotos (dir : string) : result (list Photo) :=
  entries <- Os.ReadDir env dir ;;
  Ok (fold_left (scanEntry dir) entries []).

Definition sortPhotos (photos : list Photo) (order : string) : list Photo :=
  if order =? "mtime_asc" then
    Sort.Slice (fun pi pj => (Mtime pi <? Mtime pj)%Z) photos
  else if order =? "name_asc" then
    Sort.Slice (fun pi pj =>
      String.ltb (Strings.ToLower (Name pi)) (Strings.ToLower (Name pj))) photos
  else if order =? "name_desc" then
    Sort.Slice (fun pi pj =>
      String.ltb (Strings.ToLower (Name pj)) (Strings.ToLower (Name pi))) photos
  else
    Sort.Slice (fun pi pj => (Mtime pi >? Mtime pj)%Z) photos.

(** The document [enc.Encode(resp)] writes for a [PhotosResponse]. *)
Definition encodePhoto (p : Photo) : Json.Value :=
  Json.Object [("url", Json.Str (URL p)); ("name", Json.Str (Name p));
               ("mtime", Json.Number (Mtime p)); ("size", Json.Number (Size p))].

Definition encodeResponse (resp : PhotosResponse) : Json.Value :=
  Json.Object
    [("photos", match Photos resp with
                | [] => Json.Null
                | ps => Json.Array (map encodePhoto ps)
                end);
     ("count", Json.Number (Count resp))].

(** ** The handlers registered on the mux *)

Definition handleRoot : Http.Handler := fun w r =>
  if negb (Http.Path (Http.Url r) =? "/") then Http.NotFound w r
  else serveEmbeddedFile w r "static/index.html" "text/html; charset=utf-8".

Definition handleInfo : Http.Handler := fun w r =>
  if negb (Http.Path (Http.Url r) =? "/info") then Http.NotFound w r
  else if negb (Http.Method r =? Http.MethodGet) then
    let w := Http.setHeader w "Allow" Http.MethodGet in
    Http.Error w "method not allowed" Http.StatusMethodNotAllowed
  else serveEmbeddedFile w r "static/info.html" "text/html; charset=utf-8".

Definition handleStatic : Http.Handler := fun w r =>
  let path := Strings.TrimPrefix (Http.Path (Http.Url r)) "/" in
  if negb (Strings.HasPrefix path "static/") then Http.NotFound w r
  else serveEmbeddedFile w r path "".

Definition handleApiPhotos (absPhotosDir : string) : Http.Handler := fun w r =>
  if negb (Http.Method r =? Http.MethodGet) then
    let w := Http.setHeader w "Allow" Http.MethodGet in
    Http.Error w "method not allowed" Http.StatusMethodNotAllowed
  else
    match scanPhotos absPhotosDir with
    | Err _ =>
        Http.Error w "failed to scan photos directory" Http.StatusInternalServerError
    | Ok photos =>
        let order := Http.Get (Http.Query (Http.Url r)) "order" in
        let photos := sortPhotos photos order in
        let resp := {| Photos := photos; Count := Z.of_nat (List.length photos) |} in
        let w := Http.setHeader w "Content-Type" "application/json; charset=utf-8" in
        let w := Http.setHeader w "Cache-Control" "no-store" in
        Http.writeChunk w (Http.JsonDoc (encodeResponse resp))
    end.

Definition handlePhotos (absPhotosDir : string) : Http.Handler := fun w r =>
  if negb (Http.Method r =? Http.MethodGet) && negb (Http.Method r =? Http.MethodHead)
  then
    let w := Http.setHeader w "Allow" "GET, HEAD" in
    Http.Error w "method not allowed" Http.StatusMethodNotAllowed
  else
    let name := Strings.TrimPrefix (Http.Path (Http.Url r)) "/photos/" in
    if name =? "" then Http.NotFound w r
    else if Strings.Contains name "/" || Strings.Contains name "\" then Http.NotFound w r
    else if negb (isAllowedExt name) then Http.NotFound w r
    else
      match safeJoin absPhotosDir name with
      | Err _ => Http.NotFound w r
      | Ok fullPath =>
          match Os.Stat env fullPath with
          | Err _ => Http.NotFound w r
          | Ok fi =>
              if Os.IsDir fi then Http.NotFound w r
              else
                let ct := TypeByExtension (Strings.ToLower (Filepath.Ext name)) in
                let w := if negb (ct =? "") then Http.setHeader w "Content-Type" ct
                         else w in
                let w := Http.setHeader w "Cache-Control"
                           "public, max-age=31536000, immutable" in
                Http.ServeFile w r fullPath
          end
      end.

Definition handleHealthz : Http.Handler := fun w r =>
  let w := Http.setHeader w "Content-Type" "text/plain; charset=utf-8" in
  let w := Http.WriteHeader w Http.StatusOK in
  Http.Write w "ok".

(** ** The wrappers *)

Definition securityHeaders (next : Http.Handler) : Http.Handler := fun w r =>
  let w := Http.setHeader w "X-Content-Type-Options" "nosniff" in
  let w := Http.setHeader w "X-Frame-Options" "DENY" in
  let w := Http.setHeader w "Referrer-Policy" "no-referrer" in
  let w := Http.setHeader w "Permissions-Policy"
             "geolocation=(), microphone=(), camera=()" in
  let w := Http.setHeader w "Content-Security-Policy"
             (Strings.Join ["default-src 'self'"; "img-src 'self' data:";
                            "style-src 'self'"; "script-src 'self'"] "; ") in
  next w r.

(** The page of [unauthorized]: the markup before and after the escaped
    path.  [dq] is the double quote. *)
Definition dq : string := String "034"%char "".

Definition unauthorizedPageHead : string :=
  ("<!doctype html>
<html lang=" ++ dq ++
  "en" ++ dq ++
  ">
<head>
  <meta charset=" ++ dq ++
  "utf-8" ++ dq ++
  "/>
  <meta name=" ++ dq ++
  "viewport" ++ dq ++
  " content=" ++ dq ++
  "width=device-width,initial-scale=1" ++ dq ++
  "/>
  <title>Frameserve - Unauthorized</title>
  <style>
    :root{color-scheme:dark}
    body{margin:0;padding:24px;background:#000;color:#fff;font-family:system-ui,-apple-system,Segoe UI,Roboto,Arial,sans-serif;line-height:1.5}
    code{font-family:ui-monospace,SFMono-Regular,Menlo,Monaco,Consolas," ++ dq ++
  "Liberation Mono" ++ dq ++
  "," ++ dq ++
  "Courier New" ++ dq ++
  ",monospace}
    .card{max-width:920px;margin:0 auto;background:rgba(255,255,255,0.06);border:1px solid rgba(255,255,255,0.10);border-radius:14px;padding:16px 18px}
    a{color:#9ad1ff;text-decoration:none} a:hover{text-decoration:underline}
  </style>
</head>
<body>
  <div class=" ++ dq ++
  "card" ++ dq ++
  ">
    <h1>Unauthorized</h1>
    <p>This Frameserve instance requires a shared access token.</p>
    <p><strong>One-time setup on this device:</strong></p>
    <p>Open this URL once (replace <code>YOURTOKEN</code>):</p>
    <p><code>")%string.

Definition unauthorizedPageTail : string :=
  ("?token=YOURTOKEN</code></p>
    <p>After that, the device will stay logged in via a long-lived cookie.</p>
    <p class=" ++ dq ++
  "muted" ++ dq ++
  ">If you cleared cookies or switched browsers, repeat the one-time setup.</p>
  </div>
</body>
</html>")%string.

Definition unauthorized (w : Http.ResponseWriter) (r : Http.Request)
  : Http.ResponseWriter :=
  let w := Http.setHeader w "Cache-Control" "no-store" in
  let w := Http.setHeader w "Content-Type" "text/html; charset=utf-8" in
  let w := Http.WriteHeader w Http.StatusUnauthorized in
  Http.Write w (unauthorizedPageHead ++ htmlEscape (Http.Path (Http.Url r))
                ++ unauthorizedPageTail)%string.

Definition authMiddleware (token : string) (next : Http.Handler) : Http.Handler :=
  let want := token in
  fun w r =>
    if Http.Path (Http.Url r) =? "/healthz" then next w r
    else
      let q := Http.Query (Http.Url r) in
      let provided := firstNonEmpty (Http.Get q "token") (Http.Get q "t") in
      if negb (provided =? "") && constantTimeEqual want provided then
        let w := setAuthCookie w r token in
        let cq := Http.Query (Http.Url r) in
        let cq := Http.Del cq "token" in
        let cq := Http.Del cq "t" in
        let cleanURL := {| Http.Path := Http.Path (Http.Url r);
                           Http.RawQuery := Http.Encode cq |} in
        Http.Redirect w r cleanURL Http.StatusFound
      else
        let cookieOk :=
          match Http.CookieNamed (Http.ReqCookies r) authCookieName with
          | Some value => constantTimeEqual want value
          | None => false
          end in
        if cookieOk then next w r
        else
          let bearer := parseBearer (Http.Get (Http.ReqHeader r) "Authorization") in
          if negb (bearer =? "") && constantTimeEqual want bearer then next w r
          else unauthorized w r.

(** ** [main] *)

Definition routes (absPhotosDir : string) : Http.ServeMux :=
  let mux := [] in
  let mux := Http.HandleFunc mux "/" handleRoot in
  let mux := Http.HandleFunc mux "/info" handleInfo in
  let mux := Http.HandleFunc mux "/static/" handleStatic in
  let mux := Http.HandleFunc mux "/api/photos" (handleApiPhotos absPhotosDir) in
  let mux := Http.HandleFunc mux "/photos/" (handlePhotos absPhotosDir) in
  let mux := Http.HandleFunc mux "/healthz" handleHealthz in
  mux.

(** The handler [main] installs, from the token and the photos directory
    it has read. *)
Definition serverHandler (authToken absPhotosDir : string) : Http.Handler :=
  let handler := Http.ServeHTTP (routes absPhotosDir) in
  let handler := securityHeaders handler in
  if negb (authToken =? "") then authMiddleware authToken handler
  else handler.

Record Server := {
  Addr : string;
  ServerHandler : Http.Handler
}.

(** [main] up to [ListenAndServe]; an error is the [log.Fatalf]. *)
Definition main : result Server :=
  let port := getenv "PORT" "80" in
  let photosDir := getenv "PHOTOS_DIR" "/photos" in
  let authToken := Strings.TrimSpace (Os.Getenv env "AUTH_TOKEN") in
  absPhotosDir <- Filepath.Abs (Os.Getwd env) photosDir ;;
  Ok {| Addr := (":" ++ port)%string;
        ServerHandler := serverHandler authToken absPhotosDir |}.

(** The response to one request. *)
Definition respond (h : Http.Handler) (r : Http.Request) : Http.Response :=
  Http.finish (h Http.newWriter r).

End Program.

(** ** Reading the listing back

    The slideshow script reads the document with [res.json()], takes
    [data.photos || []] and reads [name], [mtime] and [size] of each item. *)






(** ** Credentials

    What a request presents to the gate: the query token is [token] unless
    that is blank, and [t] then; the cookie is the first one named
    [frameserve_auth]; the bearer token is what [parseBearer] reads. *)

Definition queryToken (r : Http.Request) : string :=
  let q := Http.Query (Http.Url r) in
  firstNonEmpty (Http.Get q "token") (Http.Get q "t").

Definition presentsQueryToken (token : string) (r : Http.Request) : bool :=
  queryToken r =? token.

Definition presentsCookie (token : string) (r : Http.Request) : bool :=
  match Http.CookieNamed (Http.ReqCookies r) authCookieName with
  | Some value => value =? token
  | None => false
  end.

Definition presentsBearer (token : string) (r : Http.Request) : bool :=
  parseBearer (Http.Get (Http.ReqHeader r) "Authorization") =? token.

(** The URL of the exchange redirect: the request's, without [token] and
    [t]. *)
Definition exchangeTarget (r : Http.Request) : Http.URL :=
  {| Http.Path := Http.Path (Http.Url r);
     Http.RawQuery :=
       Http.Encode (Http.Del (Http.Del (Http.Query (Http.Url r)) "token") "t") |}.

(** ** Names and children

    A name a directory entry can have: not empty, not [.] or [..], and
    without a separator.  The child of a directory with that name. *)

Definition fileElem (name : string) : bool :=
  negb (name =? "") && negb (name =? ".") && negb (name =? "..")
  && negb (Strings.Contains name "/").

Definition child (dir name : string) : string :=
  if dir =? "/" then "/" ++ name else dir ++ "/" ++ name.

Definition directChild (dir path : string) : Prop :=
  exists name, fileElem name = true /\ path = child dir name.



(** What [safeJoin] returns for an absolute base directory, by the last
    element of the cleaned name. *)
Definition safeJoinSpec (baseDir fileName : string) : result string :=
  if fileName =? "" then Err "empty name"
  else
    let dir := Filepath.Clean baseDir in
    let last := Filepath.Base (Filepath.Clean fileName) in
    if (last =? ".") || (last =? "/") then Ok dir
    else if last =? ".." then
      if dir =? "/" then Ok dir else Err "path escapes base dir"
    else Ok (child dir last).



(** The files whose bytes a response holds. *)
Definition servedFiles (resp : Http.Response) : list string :=
  flat_map (fun c => match c with Http.FileBytes path => [path] | _ => [] end)
           (Http.RespBody resp).

(** The headers of [securityHeaders]. *)
Definition securityHeaderValues : list (string * string) :=
  [ ("X-Content-Type-Options", "nosniff");
    ("X-Frame-Options", "DENY");
    ("Referrer-Policy", "no-referrer");
    ("Permissions-Policy", "geolocation=(), microphone=(), camera=()");
    ("Content-Security-Policy",
     "default-src 'self'; img-src 'self' data:; style-src 'self'; script-src 'self'") ].

Definition carries (h : Http.Header) : Prop :=
  Forall (fun kv => Http.Get h (fst kv) = snd kv) securityHeaderValues.

Definition carriesNone (h : Http.Header) : Prop :=
  Forall (fun kv => Http.hasKey h (fst kv) = false) securityHeaderValues.

(** The headers a writer has sent, or would send now. *)
Definition outgoing (w : Http.ResponseWriter) : Http.Header :=
  match Http.sent w with
  | Some s => Http.SentHeader s
  | None => Http.header w
  end.

Definition protected (w : Http.ResponseWriter) : Prop := carries (outgoing w).

(** Setting [key] to [value] leaves the security headers as they are. *)
Definition harmless (key value : string) : bool :=
  forallb (fun kv => negb (fst kv =? key) || (snd kv =? value)) securityHeaderValues.

(** The requests the gate answers itself, with the exchange redirect or the
    unauthorized page. *)
Definition gateReplies (token : string) (r : Http.Request) : bool :=
  negb (token =? "") && negb (Http.Path (Http.Url r) =? "/healthz")
  && (presentsQueryToken token r
      || negb (presentsCookie token r || presentsBearer token r)).

(** A value of white space runes only. *)
Fixpoint blank (s : string) : bool :=
  match s with
  | EmptyString => true
  | String c r =>
      if Strings.isSpace c then blank r
      else
        match r with
        | EmptyString => false
        | String d r2 =>
            if Strings.isSpace2 c d then blank r2
            else
              match r2 with
              | EmptyString => false
              | String e r3 => if Strings.isSpace3 c d e then blank r3 else false
              end
        end
  end.

(** The environment with every blank variable unset. *)
Definition unsetBlank (env : Os.Env) : Os.Env :=
  {| Os.Getwd := Os.Getwd env;
     Os.ReadDir := Os.ReadDir env;
     Os.Stat := Os.Stat env;
     Os.Getenv := fun k => if blank (Os.Getenv env k) then "" else Os.Getenv env k |}.

(** The orders the specification names. *)



(** A handler whose response no reply of the gate can be taken for. *)
Definition probe : Http.Handler := fun w _ => Http.WriteHeader w 204.

(** A handler that leaves the security headers of its writer in place. *)
Definition keepsHeaders (h : Http.Handler) : Prop :=
  forall w r, protected w -> protected (h w r).

(** A string without a separator; the rooted path of a list of elements;
    the elements of a rooted path once it is cleaned. *)
Definition slashFree (s : string) : Prop := Strings.Contains s "/" = false.

Definition render (elems : list string) : string :=
  String "/" (Strings.Join elems "/").

Definition absElems (p : string) : list string :=
  Filepath.cleanElems true (Strings.Split "/" p).

(** ** A sample deployment

    The directory of the specification's example, with a subdirectory and a
    file that is listed but gone when it is stat'ed. *)

Module Sample.

Definition file (size mtime : Z) : result Os.FileInfo :=
  Ok {| Os.IsDir := false; Os.Size := size; Os.ModTimeUnix := mtime |}.

Definition env : Os.Env :=
  {| Os.Getwd := Some "/";
     Os.ReadDir := fun dir =>
       if dir =? "/photos" then
         Ok [ {| Os.EntryName := "a.jpg"; Os.EntryIsDir := false |};
              {| Os.EntryName := "b.png"; Os.EntryIsDir := false |};
              {| Os.EntryName := "c.txt"; Os.EntryIsDir := false |};
              {| Os.EntryName := "album.jpg"; Os.EntryIsDir := true |};
              {| Os.EntryName := "gone.gif"; Os.EntryIsDir := false |} ]
       else Err "no such file or directory";
     Os.Stat := fun path =>
       if path =? "/photos/a.jpg" then file 10 100
       else if path =? "/photos/b.png" then file 20 200
       else if path =? "/photos/c.txt" then file 5 300
       else if (path =? "/photos") || (path =? "/photos/album.jpg") then
         Ok {| Os.IsDir := true; Os.Size := 4096; Os.ModTimeUnix := 50 |}
       else Err "no such file or directory";
     Os.Getenv := fun k =>
       if k =? "AUTH_TOKEN" then "  s3cret  "
       else if k =? "PORT" then " "
       else "" |}.

(** The same deployment started with blank variables: spaces, a tab and a
    space, a no-break space. *)
Definition blankEnv : Os.Env :=
  {| Os.Getwd := Os.Getwd env;
     Os.ReadDir := Os.ReadDir env;
     Os.Stat := Os.Stat env;
     Os.Getenv := fun k =>
       if k =? "AUTH_TOKEN" then "   "
       else if k =? "PORT" then String "009"%char " "
       else if k =? "PHOTOS_DIR" then String "194"%char (String "160"%char "")
       else "" |}.

Definition staticFS (path : string) : option string :=
  if path =? "static/index.html" then Some "<html>slideshow</html>"
  else if path =? "static/info.html" then Some "<html>info</html>"
  else if path =? "static/app.js" then Some "boot();"
  else None.

Definition TypeByExtension (ext : string) : string :=
  if ext =? ".jpg" then "image/jpeg"
  else if ext =? ".png" then "image/png"
  else if ext =? ".js" then "text/javascript; charset=utf-8"
  else "".

Definition request (method path : string) : Http.Request :=
  {| Http.Method := method;
     Http.Url := {| Http.Path := path; Http.RawQuery := [] |};
     Http.ReqHeader := [];
     Http.ReqCookies := [];
     Http.TLS := false |}.

Definition withQuery (r : Http.Request) (q : Http.Values) : Http.Request :=
  {| Http.Method := Http.Method r;
     Http.Url := {| Http.Path := Http.Path (Http.Url r); Http.RawQuery := q |};
     Http.ReqHeader := Http.ReqHeader r;
     Http.ReqCookies := Http.ReqCookies r;
     Http.TLS := Http.TLS r |}.

Definition withCookie (r : Http.Request) (name value : string) : Http.Request :=
  {| Http.Method := Http.Method r;
     Http.Url := Http.Url r;
     Http.ReqHeader := Http.ReqHeader r;
     Http.ReqCookies := (name, value) :: Http.ReqCookies r;
     Http.TLS := Http.TLS r |}.

Definition withHeader (r : Http.Request) (key value : string) : Http.Request :=
  {| Http.Method := Http.Method r;
     Http.Url := Http.Url r;
     Http.ReqHeader := (key, value) :: Http.ReqHeader r;
     Http.ReqCookies := Http.ReqCookies r;
     Http.TLS := Http.TLS r |}.

Definition photos : list Photo :=
  [ {| URL := "/photos/b.png?v=200"; Name := "b.png"; Mtime := 200; Size := 20 |};
    {| URL := "/photos/Zoo.gif?v=150"; Name := "Zoo.gif"; Mtime := 150; Size := 7 |};
    {| URL := "/photos/a.jpg?v=100"; Name := "a.jpg"; Mtime := 100; Size := 10 |} ].

Definition scanned : list Photo :=
  [ {| URL := "/photos/a.jpg?v=100"; Name := "a.jpg"; Mtime := 100; Size := 10 |};
    {| URL := "/photos/b.png?v=200"; Name := "b.png"; Mtime := 200; Size := 20 |} ].

Definition listingRequest : Http.Request :=
  withQuery (request "GET" "/api/photos") [("order", "name_desc")].

(** A stale token in the query and the cookie of an earlier exchange. *)
Definition staleQueryWithCookie : Http.Request :=
  withCookie (withQuery (request "GET" "/") [("token", "old")])
             "frameserve_auth" "s3cret".

(** The first visit of a device, over a proxy that terminates TLS. *)
Definition firstVisit : Http.Request :=
  withHeader
    (withQuery (request "GET" "/") [("seconds", "15"); ("token", "s3cret")])
    "X-Forwarded-Proto" "https".


Definition healthzWithToken : Http.Request :=
  withQuery (request "GET" "/healthz") [("token", "s3cret")].

Definition server (token : string) : Http.Handler :=
  serverHandler (sorter := Sort.insertion) env staticFS TypeByExtension token "/photos".

End Sample.


(** ** Package [net/url]

    [url.PathUnescape], which the server applies to the path of a request:
    [%] and two hex digits stand for one byte, any other [%] is an error, and
    every other byte, [+] included, stands for itself. *)

Module Url.

Definition ishex (c : ascii) : bool :=
  let n := nat_of_ascii c in
  ((48 <=? n)%nat && (n <=? 57)%nat)
  || ((97 <=? n)%nat && (n <=? 102)%nat)
  || ((65 <=? n)%nat && (n <=? 70)%nat).

Definition unhex (c : ascii) : nat :=
  let n := nat_of_ascii c in
  if ((48 <=? n)%nat && (n <=? 57)%nat)%bool then n - 48
  else if ((97 <=? n)%nat && (n <=? 102)%nat)%bool then n - 97 + 10
  else if ((65 <=? n)%nat && (n <=? 70)%nat)%bool then n - 65 + 10
  else 0.

Fixpoint PathUnescape (s : string) : result string :=
  match s with
  | EmptyString => Ok EmptyString
  | String c r =>
      if Ascii.eqb c "%"%char then
        match r with
        | String h (String l rest) =>
            if ishex h && ishex l then
              rest' <- PathUnescape rest ;;
              Ok (String (ascii_of_nat (unhex h * 16 + unhex l)) rest')
            else Err "invalid URL escape"
        | _ => Err "invalid URL escape"
        end
      else
        rest' <- PathUnescape r ;;
        Ok (String c rest')
  end.

End Url.

(** The URL [scanPhotos] gives a photo. *)
Definition photoURL (name : string) (mtime : Z) : string :=
  "/photos/" ++ urlPathEscape name ++ "?v=" ++ NilZero.string_of_int (Z.to_int mtime).

(** The bytes of a string, and the extensions [isAllowedExt] lets through. *)
Definition bytesOf (s : string) : list ascii := list_ascii_of_string s.


(** What a page looks like on the wire: the bytes of the embedded file as
    HTML, never stored; status 404 when the file is not embedded. *)
Definition servesPage (staticFS : string -> option string)
    (resp : Http.Response) (file : string) : Prop :=
  match staticFS file with
  | Some b =>
      Http.RespStatus resp = Http.StatusOK
      /\ Http.RespBody resp = [Http.Bytes b]
      /\ Http.Get (Http.RespHeader resp) "Content-Type" = "text/html; charset=utf-8"
      /\ Http.Get (Http.RespHeader resp) "Cache-Control" = "no-store"
  | None => Http.RespStatus resp = Http.StatusNotFound
  end.


(** The paths, by their elements, that a pattern of [main] other than the
    catch-all ["/"] answers: the root itself, [/info], [/healthz],
    [/api/photos], and whatever starts with [/static] or [/photos]. *)
Definition routed (elems : list string) : bool :=
  match elems with
  | [] => true
  | [x] => (x =? "info") || (x =? "healthz") || (x =? "static") || (x =? "photos")
  | x :: y :: rest =>
      (x =? "static") || (x =? "photos")
      || ((x =? "api") && (y =? "photos") && match rest with [] => true | _ => false end)
  end.

(** * The slideshow script

    [static/app.js].  A [Number] is what [parseInt] can return: an integer,
    an infinity or [NaN].  The items of the list are the objects of the
    listing, read as [Photo]s.  Each event runs to its first [await]
    without interruption, and the index and the list are read and written
    before it, so that an event is one step on them; the two image layers,
    which are written after the [await], are left out. *)

Module App.

Inductive Number := NaN | NegInf | Int (z : Z) | PosInf.

Definition isNaN (n : Number) : bool :=
  match n with NaN => true | _ => false end.

Definition mathMin (a b : Number) : Number :=
  match a, b with
  | NaN, _ | _, NaN => NaN
  | NegInf, _ | _, NegInf => NegInf
  | PosInf, n | n, PosInf => n
  | Int x, Int y => Int (Z.min x y)
  end.

Definition mathMax (a b : Number) : Number :=
  match a, b with
  | NaN, _ | _, NaN => NaN
  | PosInf, _ | _, PosInf => PosInf
  | NegInf, n | n, NegInf => n
  | Int x, Int y => Int (Z.max x y)
  end.

Record State := {
  photos : list Photo;
  idx : Z;
  paused : bool;
  lastListHash : option (list (string * Z));
  timers : bool
}.

(** The state the script starts in; [lastListHash] is the empty string,
    which is the signature of no list, and no timer runs. *)
Definition initial : State :=
  {| photos := []; idx := 0%Z; paused := false; lastListHash := None;
     timers := false |}.

Definition setIdx (st : State) (i : Z) : State :=
  {| photos := photos st; idx := i; paused := paused st;
     lastListHash := lastListHash st; timers := timers st |}.

Definition setList (st : State) (items : list Photo) (signature : list (string * Z))
  : State :=
  {| photos := items; idx := idx st; paused := paused st;
     lastListHash := Some signature; timers := timers st |}.

Definition setPaused (st : State) (b : bool) : State :=
  {| photos := photos st; idx := idx st; paused := b;
     lastListHash := lastListHash st; timers := timers st |}.

Definition startTimers (st : State) : State :=
  {| photos := photos st; idx := idx st; paused := paused st;
     lastListHash := lastListHash st; timers := true |}.

Definition len (st : State) : Z := Z.of_nat (List.length (photos st)).

(** [photos[i]], [None] for [undefined]. *)
Definition item (items : list Photo) (i : Z) : option Photo :=
  if (i <? 0)%Z then None else nth_error items (Z.to_nat i).

(** [JSON.stringify(list.map(p => [p.name, p.mtime]))], which renders two
    lists of pairs alike only when they are equal. *)
Definition signature (items : list Photo) : list (string * Z) :=
  map (fun p => (Name p, Mtime p)) items.

Definition signature_eqb (a : list (string * Z)) (b : option (list (string * Z)))
  : bool :=
  match b with
  | Some b =>
      (List.length a =? List.length b)%nat
      && forallb (fun xy => (fst (fst xy) =? fst (snd xy)) && (snd (fst xy) =? snd (snd xy))%Z)
                 (combine a b)
  | None => false
  end.

(** The events of a run.  [u] is the integer that
    [Math.floor(Math.random() * photos.length)] gives in the event, should
    the script evaluate it; [Refreshed] carries the list of a listing that
    was fetched and decoded, [None] when the fetch failed or the reply was
    not a 2xx. *)
Inductive Event :=
  | Timer (u : Z)
  | ArrowRight (u : Z)
  | ArrowLeft (u : Z)
  | Space
  | Refreshed (items : option (list Photo)).

Section Script.

(** The parameters of the page: [parseInt(v, 10)] of a parameter or of
    [null], [params.get], and the [shuffle] flag the script has read. *)
Variable parseInt : option string -> Number.
Variable params : string -> option string.
Variable shuffle : bool.

Definition clampInt (v : option string) (def min max : Number) : Number :=
  let n := parseInt v in
  if isNaN n then def
  else mathMax min (mathMin max n).

Definition seconds : Number := clampInt (params "seconds") (Int 10%Z) (Int 1%Z) (Int 3600%Z).

Definition refreshSeconds : Number :=
  clampInt (params "refresh") (Int 60%Z) (Int 5%Z) (Int 3600%Z).

Definition pickStartIndex (st : State) (u : Z) : Z :=
  match photos st with
  | [] => 0%Z
  | _ => if shuffle then u else 0%Z
  end.

Definition nextIndex (st : State) (u : Z) : Z :=
  match photos st with
  | [] => 0%Z
  | _ => if shuffle then u else Z.rem (idx st + 1)%Z (len st)
  end.

Definition prevIndex (st : State) (u : Z) : Z :=
  match photos st with
  | [] => 0%Z
  | _ => if shuffle then u else Z.rem (idx st - 1 + len st)%Z (len st)
  end.

(** [showAt] up to its first [await]: it throws when [photos[idx]] is
    [undefined]. *)
Definition showAt (st : State) (i : Z) : result State :=
  match photos st with
  | [] => Ok st
  | _ =>
      let st := setIdx st i in
      match item (photos st) (idx st) with
      | Some _ => Ok st
      | None => Err "TypeError"
      end
  end.

(** The callback of [refreshListPeriodically]; its [catch] ignores what
    [showAt] throws. *)
Definition refresh (st : State) (fetched : option (list Photo)) : State :=
  match fetched with
  | None => st
  | Some items =>
      let sig := signature items in
      if negb (signature_eqb sig (lastListHash st)) then
        let st := setList st items sig in
        let st := if (len st <=? idx st)%Z then setIdx st 0%Z else st in
        match showAt st (idx st) with
        | Ok st' => st'
        | Err _ => st
        end
      else st
  end.

(** One event.  The timer and the refresh run only once [boot] has started
    them. *)
Definition step (st : State) (e : Event) : result State :=
  match e with
  | Timer u =>
      if negb (timers st) then Ok st
      else if paused st then Ok st
      else showAt st (nextIndex st u)
  | ArrowRight u => showAt st (nextIndex st u)
  | ArrowLeft u => showAt st (prevIndex st u)
  | Space => Ok (setPaused st (negb (paused st)))
  | Refreshed fetched =>
      if negb (timers st) then Ok st else Ok (refresh st fetched)
  end.

(** [boot] from the list [fetchPhotos] got, [None] when it threw; the
    [catch] of [boot] leaves the timers off. *)
Definition boot (fetched : option (list Photo)) (u : Z) : State :=
  match fetched with
  | None => initial
  | Some items =>
      let st := setList initial items (signature items) in
      match photos st with
      | [] => st
      | _ =>
          let st := setIdx st (pickStartIndex st u) in
          match showAt st (idx st) with
          | Ok st' => startTimers st'
          | Err _ => st
          end
      end
  end.

Fixpoint run (st : State) (events : list Event) : result State :=
  match events with
  | [] => Ok st
  | e :: rest => st' <- step st e ;; run st' rest
  end.

(** The draws of a run are indices of the list at hand, as
    [Math.floor(Math.random() * n)] is for a list of [n > 0] items. *)
Definition drawn (st : State) (u : Z) : Prop :=
  shuffle = true -> photos st <> [] -> (0 <= u < len st)%Z.

Definition fair (st : State) (e : Event) : Prop :=
  match e with
  | Timer u | ArrowRight u | ArrowLeft u => drawn st u
  | Space | Refreshed _ => True
  end.

Fixpoint fairRun (st : State) (events : list Event) : Prop :=
  match events with
  | [] => True
  | e :: rest =>
      fair st e
      /\ match step st e with
         | Ok st' => fairRun st' rest
         | Err _ => True
         end
  end.

Definition fairBoot (fetched : option (list Photo)) (u : Z) : Prop :=
  match fetched with
  | Some items => shuffle = true -> (0 <= u < Z.of_nat (List.length items))%Z \/ items = []
  | None => True
  end.

(** The index is one of the list, and the signature kept is that of the
    list on display once the timers run. *)
Definition inRange (st : State) : Prop :=
  (0 <= idx st)%Z /\ (photos st = [] \/ (idx st < len st)%Z).

Definition stable (st : State) : Prop :=
  inRange st
  /\ (timers st = true -> lastListHash st = Some (signature (photos st))).

End Script.

End App.

(** * Properties *)

(** ** The library models on the cases of their documentation *)

Example Clean_table :
  map Filepath.Clean
      ["abc"; "abc/def"; "."; ".."; "../.."; "../../abc"; "/abc"; "/"; "";
       "abc/"; "./"; "../../"; "/abc/"; "abc//def//ghi"; "//abc"; "//abc//";
       "abc/./def"; "/./abc/def"; "abc/."; "abc/def/ghi/../jkl";
       "abc/def/../../.."; "/abc/def/../../.."; "/../abc";
       "abc/../../././../def"]
  = ["abc"; "abc/def"; "."; ".."; "../.."; "../../abc"; "/abc"; "/"; ".";
     "abc"; "."; "../.."; "/abc"; "abc/def/ghi"; "/abc"; "/abc";
     "abc/def"; "/abc/def"; "abc"; "abc/def/jkl";
     ".."; "/"; "/abc";
     "../../def"].
Proof. reflexivity. Qed.

Example Base_table :
  map Filepath.Base [""; "."; "/."; "/"; "////"; "x/"; "abc"; "abc/def"; "a/b/.x"]
  = ["."; "."; "."; "/"; "/"; "x"; "abc"; "def"; ".x"].
Proof. reflexivity. Qed.

Example Ext_table :
  map Filepath.Ext ["path.go"; "path.pb.go"; "a.dir/b"; "a.dir/b.go"; "a.dir/"; "IMG.JPG"]
  = [".go"; ".go"; ""; ".go"; ""; ".JPG"].
Proof. reflexivity. Qed.

Example Join_table :
  map Filepath.Join [["a"; "b"]; ["a"; ""]; [""; "b"]; ["/"; "a"]; ["a/"; "b"]; [""; ""]]
  = ["a/b"; "a"; "b"; "/a"; "a/b"; ""].
Proof. reflexivity. Qed.

Example Rel_table :
  map (fun bt => Filepath.Rel (fst bt) (snd bt))
      [("a/b", "a/b"); ("a/b", "a/b/c"); ("a/b", "a/c"); ("/a/b", "/a/b/c");
       ("/a/b", "/a"); ("/", "/a/c"); ("/a/b/c", "/c/d"); ("/photos", "/")]
  = [Ok "."; Ok "c"; Ok "../c"; Ok "c"; Ok ".."; Ok "a/c"; Ok "../../../c/d"; Ok ".."].
Proof. reflexivity. Qed.

Example TrimSpace_table :
  map Strings.TrimSpace ["  s3cret  "; "   "; ""; "a b"; String "009"%char "x "]
  = ["s3cret"; ""; ""; "a b"; "x"].
Proof. reflexivity. Qed.

(** No-break spaces (U+00A0) and an ideographic space (U+3000) around a
    word; a lone continuation byte is kept. *)
Example TrimSpace_unicode :
  Strings.TrimSpace
    (String "194" (String "160" (String "227" (String "128" (String "128"
       (String "a" (String "128" (String " " (String "194" (String "160" ""))))))))))
  = String "a" (String "128" "").
Proof. reflexivity. Qed.

Example parseBearer_table :
  map parseBearer ["Bearer abc"; "bearer  abc "; "BEARER abc"; "Basic abc"; "Bearer"; ""]
  = ["abc"; "abc"; "abc"; ""; ""; ""].
Proof. reflexivity. Qed.

Example isAllowedExt_table :
  map isAllowedExt ["a.jpg"; "b.JPEG"; "c.Png"; "d.webp"; "e.gif"; "f.txt"; "g"; ".";
                    ".."; "h.jpg.exe"]
  = [true; true; true; true; true; false; false; false; false; false].
Proof. reflexivity. Qed.

(** The example of the specification: [a.jpg] and [b.png] are listed,
    [c.txt] is not; by name ascending [a.jpg] comes first, by default
    [b.png], the newer one. *)
Example listing_of_the_specification :
  scanPhotos Sample.env "/photos" = Ok Sample.scanned
  /\ map Name (sortPhotos (sorter := Sort.insertion) Sample.scanned "name_asc")
     = ["a.jpg"; "b.png"]
  /\ map Name (sortPhotos (sorter := Sort.insertion) Sample.scanned "")
     = ["b.png"; "a.jpg"].
Proof. repeat split. Qed.

(** ** Sorting *)

Lemma StronglySorted_snoc {A} (R : A -> A -> Prop) l y :
  StronglySorted R l -> Forall (fun a => R a y) l -> StronglySorted R (l ++ [y]).
Proof.
  induction 1 as [|x l Hl IH Hx]; intros Hy; simpl.
  - repeat constructor.
  - inversion Hy; subst. constructor; [now apply IH|].
    apply Forall_app. split; [exact Hx|]. now constructor.
Qed.

Section InsertionSort.

Context {A : Type} (less : A -> A -> bool).

Lemma insertLess_Permutation x l :
  Permutation (x :: l) (Sort.insertLess less x l).
Proof.
  induction l as [|y l IH]; simpl.
  - apply Permutation_refl.
  - destruct (less x y).
    + eapply perm_trans; [apply perm_swap|]. now apply perm_skip.
    + apply Permutation_refl.
Qed.

Lemma fold_insertLess_Permutation l acc :
  Permutation (l ++ acc)
    (fold_left (fun sorted x => Sort.insertLess less x sorted) l acc).
Proof.
  revert acc. induction l as [|x l IH]; intros acc; simpl.
  - apply Permutation_refl.
  - eapply perm_trans; [|apply IH].
    eapply perm_trans; [apply Permutation_middle|].
    apply Permutation_app_head, insertLess_Permutation.
Qed.

Lemma insertionSort_Permutation l :
  Permutation l (Sort.insertionSort less l).
Proof.
  unfold Sort.insertionSort.
  eapply perm_trans; [|apply Permutation_rev].
  rewrite <- (app_nil_r l) at 1. apply fold_insertLess_Permutation.
Qed.

Hypothesis weak : Sort.StrictWeak less.

Local Abbreviation descending := (Sort.descending less).

Lemma insertLess_descending x l :
  descending l -> descending (Sort.insertLess less x l).
Proof.
  induction 1 as [|y l Hl IH Hy]; simpl.
  - repeat constructor.
  - destruct (less x y) eqn:Hxy.
    + constructor; [exact IH|].
      eapply Permutation_Forall; [apply insertLess_Permutation|].
      constructor; [|exact Hy].
      now apply (Sort.less_asym less weak).
    + constructor; [now constructor|].
      constructor; [exact Hxy|].
      eapply Forall_impl; [|exact Hy]. intros b Hb.
      now apply (Sort.less_negtrans less weak b y x).
Qed.

Lemma fold_insertLess_descending l acc :
  descending acc ->
  descending (fold_left (fun sorted x => Sort.insertLess less x sorted) l acc).
Proof.
  revert acc. induction l as [|x l IH]; intros acc Hacc; simpl; [exact Hacc|].
  apply IH, insertLess_descending, Hacc.
Qed.

Lemma descending_rev l :
  descending l -> StronglySorted (Sort.inOrder less) (rev l).
Proof.
  induction 1 as [|y l Hl IH Hy]; simpl; [constructor|].
  apply StronglySorted_snoc; [exact IH|].
  apply Forall_forall. intros a Ha. apply in_rev in Ha.
  rewrite Forall_forall in Hy. exact (Hy a Ha).
Qed.

Lemma insertionSort_StronglySorted l :
  StronglySorted (Sort.inOrder less) (Sort.insertionSort less l).
Proof.
  apply descending_rev, fold_insertLess_descending. constructor.
Qed.

End InsertionSort.

Lemma insertion_Lawful : Sort.Lawful Sort.insertion.
Proof.
  split; intros; simpl.
  - apply insertionSort_Permutation.
  - now apply insertionSort_StronglySorted.
Qed.

(** The comparison of Go strings, byte by byte. *)






(** The four comparators of [sortPhotos] are strict weak orderings. *)







Lemma sortPhotos_Permutation {sorter : Sort.Sorter} (law : Sort.Lawful sorter)
    photos order :
  Permutation photos (sortPhotos photos order).
Proof.
  unfold sortPhotos.
  repeat match goal with |- context [if ?b then _ else _] => destruct b end;
    apply (Sort.Slice_Permutation sorter law).
Qed.



(** ** The listing document *)



Section Listing.

Context {sorter : Sort.Sorter} (law : Sort.Lawful sorter).
Variable env : Os.Env.



End Listing.


(** ** Configuration *)

Lemma TrimLeft_blank_bounded n :
  forall s, (length s <= n)%nat -> blank s = true -> Strings.TrimLeft s = "".
Proof.
  induction n as [|n IH]; intros s Hlen.
  - destruct s; [reflexivity|simpl in Hlen; lia].
  - destruct s as [|c r]; [reflexivity|]. simpl in Hlen.
    cbn [blank Strings.TrimLeft].
    destruct (Strings.isSpace c); [apply IH; lia|].
    destruct r as [|d r2]; [discriminate|]. simpl in Hlen.
    destruct (Strings.isSpace2 c d); [apply IH; lia|].
    destruct r2 as [|e r3]; [discriminate|]. simpl in Hlen.
    destruct (Strings.isSpace3 c d e); [apply IH; lia|discriminate].
Qed.

Lemma TrimLeft_blank s : blank s = true -> Strings.TrimLeft s = "".
Proof. apply (TrimLeft_blank_bounded (length s)). lia. Qed.

Lemma TrimSpace_blank s : blank s = true -> Strings.TrimSpace s = "".
Proof. intros H. unfold Strings.TrimSpace. now rewrite TrimLeft_blank. Qed.

Lemma TrimSpace_unsetBlank env k :
  Strings.TrimSpace (Os.Getenv (unsetBlank env) k)
  = Strings.TrimSpace (Os.Getenv env k).
Proof.
  simpl. destruct (blank (Os.Getenv env k)) eqn:Hb; [|reflexivity].
  now rewrite (TrimSpace_blank _ Hb).
Qed.

Section Configuration.

Context {sorter : Sort.Sorter}.
Variable env : Os.Env.
Variable staticFS : string -> option string.
Variable TypeByExtension : string -> string.

Lemma getenv_blank k def :
  blank (Os.Getenv env k) = true -> getenv env k def = def.
Proof. intros H. unfold getenv. now rewrite TrimSpace_blank. Qed.

Lemma getenv_unsetBlank k def : getenv (unsetBlank env) k def = getenv env k def.
Proof. unfold getenv. now rewrite TrimSpace_unsetBlank. Qed.

(** C10.  A variable of white space only reads as its default: a blank
    [AUTH_TOKEN] leaves the handler without the auth gate, blank [PORT] and
    [PHOTOS_DIR] give port 80 and [/photos], and [main] builds the same
    server as with the blank variables unset. *)
Theorem blank_configuration_is_unset :
  (forall k def, blank (Os.Getenv env k) = true -> getenv env k def = def)
  /\ (blank (Os.Getenv env "AUTH_TOKEN") = true ->
      forall dir, serverHandler env staticFS TypeByExtension
                    (Strings.TrimSpace (Os.Getenv env "AUTH_TOKEN")) dir
                  = securityHeaders
                      (Http.ServeHTTP (routes env staticFS TypeByExtension dir)))
  /\ (blank (Os.Getenv env "AUTH_TOKEN") = true ->
      blank (Os.Getenv env "PORT") = true ->
      blank (Os.Getenv env "PHOTOS_DIR") = true ->
      main env staticFS TypeByExtension
      = Ok {| Addr := ":80";
              ServerHandler :=
                securityHeaders
                  (Http.ServeHTTP (routes env staticFS TypeByExtension "/photos")) |})
  /\ main (unsetBlank env) staticFS TypeByExtension
     = main env staticFS TypeByExtension.
Proof.
  split; [exact getenv_blank|]. split; [|split].
  - intros Hb dir. now rewrite TrimSpace_blank.
  - intros Ht Hp Hd. unfold main.
    rewrite !getenv_blank, TrimSpace_blank by assumption. reflexivity.
  - unfold main. rewrite !getenv_unsetBlank, TrimSpace_unsetBlank. reflexivity.
Qed.

End Configuration.

Lemma blank_configuration_is_unset_witness :
  blank (Os.Getenv Sample.blankEnv "AUTH_TOKEN") = true
  /\ blank (Os.Getenv Sample.blankEnv "PORT") = true
  /\ blank (Os.Getenv Sample.blankEnv "PHOTOS_DIR") = true
  /\ getenv Sample.blankEnv "PORT" "80" = "80"
  /\ main (sorter := Sort.insertion) Sample.blankEnv Sample.staticFS
          Sample.TypeByExtension
     = Ok {| Addr := ":80";
             ServerHandler :=
               securityHeaders
                 (Http.ServeHTTP
                    (routes (sorter := Sort.insertion) Sample.blankEnv
                            Sample.staticFS Sample.TypeByExtension "/photos")) |}.
Proof.
  destruct (blank_configuration_is_unset (sorter := Sort.insertion)
              Sample.blankEnv Sample.staticFS Sample.TypeByExtension)
    as (Hgetenv & _ & Hmain & _).
  split; [reflexivity|]. split; [reflexivity|]. split; [reflexivity|].
  split; [apply Hgetenv | apply Hmain]; reflexivity.
Defined.

(** ** The auth gate *)

Lemma length_neq_eqb a b :
  (length a =? length b)%nat = false -> (a =? b) = false.
Proof.
  intros H. apply String.eqb_neq. intros ->. now rewrite Nat.eqb_refl in H.
Qed.

Lemma constantTimeEqual_eqb a b : constantTimeEqual a b = (a =? b).
Proof.
  unfold constantTimeEqual.
  destruct (length a =? length b)%nat eqn:H; simpl; [reflexivity|].
  symmetry. now apply length_neq_eqb.
Qed.

Lemma nonempty_and_equal token provided :
  token <> "" ->
  negb (provided =? "") && constantTimeEqual token provided = (provided =? token).
Proof.
  intros Htoken. rewrite constantTimeEqual_eqb, (String.eqb_sym token provided).
  destruct (String.eqb_spec provided token) as [->|Hne].
  - apply String.eqb_neq in Htoken. now rewrite Htoken.
  - apply andb_false_r.
Qed.

Section Gate.

Variable token : string.
Hypothesis token_set : token <> "".

Variable r : Http.Request.
Hypothesis not_healthz : Http.Path (Http.Url r) <> "/healthz".

(** The three ways out of the gate. *)
Lemma authMiddleware_cases next w :
  authMiddleware token next w r =
    if presentsQueryToken token r then
      Http.Redirect (setAuthCookie w r token) r (exchangeTarget r) Http.StatusFound
    else if presentsCookie token r || presentsBearer token r then next w r
    else unauthorized w r.
Proof.
  unfold authMiddleware.
  rewrite (proj2 (String.eqb_neq _ _) not_healthz).
  rewrite (nonempty_and_equal token _ token_set).
  fold (queryToken r). fold (presentsQueryToken token r).
  destruct (presentsQueryToken token r); [reflexivity|].
  rewrite (nonempty_and_equal token _ token_set).
  fold (presentsBearer token r).
  unfold presentsCookie.
  destruct (Http.CookieNamed (Http.ReqCookies r) authCookieName) as [value|];
    simpl; [|reflexivity].
  rewrite constantTimeEqual_eqb, (String.eqb_sym token value).
  now destruct (value =? token).
Qed.

Lemma unauthorized_status : Http.RespStatus (respond unauthorized r) = 401.
Proof. reflexivity. Qed.

Lemma exchange_response :
  let resp := respond (fun w r =>
    Http.Redirect (setAuthCookie w r token) r (exchangeTarget r) Http.StatusFound) r in
  Http.RespStatus resp = 302
  /\ Http.RespLocation resp = Some (exchangeTarget r)
  /\ Http.RespCookies resp =
       [{| Http.CookieName := "frameserve_auth";
           Http.CookieValue := token;
           Http.CookiePath := "/";
           Http.MaxAge := 31536000;
           Http.HttpOnly := true;
           Http.CookieSameSite := Http.SameSiteLaxMode;
           Http.Secure := isProbablyHTTPS r |}].
Proof.
  unfold respond, Http.Redirect. simpl.
  destruct (Http.Method r =? "GET"); simpl; [repeat split|].
  destruct (Http.Method r =? "HEAD"); simpl; repeat split.
Qed.

Lemma respond_authMiddleware next :
  respond (authMiddleware token next) r =
    if presentsQueryToken token r then
      respond (fun w r => Http.Redirect (setAuthCookie w r token) r
                            (exchangeTarget r) Http.StatusFound) r
    else if presentsCookie token r || presentsBearer token r then respond next r
    else respond unauthorized r.
Proof.
  unfold respond. rewrite authMiddleware_cases.
  destruct (presentsQueryToken token r); [reflexivity|].
  now destruct (presentsCookie token r || presentsBearer token r).
Qed.


End Gate.


(** ** The token exchange *)








(** The [token] parameter hides [t] when it is not blank, and the letter
    case of [X-Forwarded-Proto] does not matter. *)
Example token_hides_t :
  Http.RespStatus
    (respond (Sample.server "s3cret")
       (Sample.withQuery (Sample.request "GET" "/") [("token", "old"); ("t", "s3cret")]))
  = 401.
Proof. reflexivity. Qed.

Example forwarded_proto_any_case :
  map Http.Secure
    (Http.RespCookies
       (respond (Sample.server "s3cret")
          (Sample.withHeader
             (Sample.withQuery (Sample.request "GET" "/") [("t", "s3cret")])
             "X-Forwarded-Proto" "HTTPS")))
  = [true].
Proof. reflexivity. Qed.


(** ** Security headers *)

Lemma Get_Del_other h key k : k <> key -> Http.Get (Http.Del h key) k = Http.Get h k.
Proof.
  intros Hne. induction h as [|[k' v'] h IH]; simpl; [reflexivity|].
  destruct (String.eqb_spec k' key) as [->|Hk]; simpl.
  - rewrite IH. now rewrite (proj2 (String.eqb_neq key k)) by congruence.
  - now rewrite IH.
Qed.

Lemma Get_Set_same h key value : Http.Get (Http.Set_ h key value) key = value.
Proof. simpl. now rewrite String.eqb_refl. Qed.

Lemma Get_Set_other h key value k :
  k <> key -> Http.Get (Http.Set_ h key value) k = Http.Get h k.
Proof.
  intros Hne. simpl. rewrite (proj2 (String.eqb_neq key k)) by congruence.
  now apply Get_Del_other.
Qed.

Lemma carries_Set h key value :
  harmless key value = true -> carries h -> carries (Http.Set_ h key value).
Proof.
  unfold harmless, carries. rewrite forallb_forall, !Forall_forall.
  intros Hh Hc kv Hin. specialize (Hh kv Hin). specialize (Hc kv Hin).
  apply orb_true_iff in Hh as [Hh|Hh].
  - apply negb_true_iff, String.eqb_neq in Hh. now rewrite Get_Set_other.
  - destruct (String.eqb_spec (fst kv) key) as [<-|Hne].
    + rewrite Get_Set_same. symmetry. now apply String.eqb_eq.
    + now rewrite Get_Set_other.
Qed.

Lemma setHeader_protected w key value :
  protected w -> harmless key value = true -> protected (Http.setHeader w key value).
Proof.
  unfold protected, outgoing. simpl. destruct (Http.sent w); [easy|].
  intros Hc Hh. now apply carries_Set.
Qed.

Lemma setLocation_protected w u : protected w -> protected (Http.setLocation w u).
Proof. exact (fun H => H). Qed.

Lemma WriteHeader_protected w code : protected w -> protected (Http.WriteHeader w code).
Proof.
  unfold protected, outgoing, Http.WriteHeader.
  destruct (Http.sent w) eqn:Hsent; simpl; [now rewrite Hsent|easy].
Qed.

Lemma writeChunk_protected w c : protected w -> protected (Http.writeChunk w c).
Proof. intros H. apply (WriteHeader_protected w 200) in H. exact H. Qed.

Lemma Write_protected w b : protected w -> protected (Http.Write w b).
Proof. apply writeChunk_protected. Qed.

Lemma finish_outgoing w : Http.RespHeader (Http.finish w) = outgoing w.
Proof.
  unfold Http.finish, outgoing, Http.WriteHeader.
  destruct (Http.sent w) eqn:Hsent; simpl; [now rewrite Hsent|reflexivity].
Qed.

(** The steps that keep a writer protected, and the tactic that chains them
    through the branches of a handler. *)
Create HintDb protect.

#[local] Hint Resolve setLocation_protected WriteHeader_protected
  writeChunk_protected Write_protected setHeader_protected : protect.
#[local] Hint Extern 1 (harmless _ _ = true) => reflexivity : protect.

Ltac protect :=
  cbv zeta;
  repeat match goal with
         | |- context [if ?b then _ else _] => destruct b
         | |- context [match ?x with _ => _ end] => destruct x
         end;
  auto 12 with protect.

Lemma Error_protected w msg code : protected w -> protected (Http.Error w msg code).
Proof. intros H. unfold Http.Error. protect. Qed.

Lemma NotFound_protected w r : protected w -> protected (Http.NotFound w r).
Proof. apply Error_protected. Qed.

Lemma Redirect_protected w r u code : protected w -> protected (Http.Redirect w r u code).
Proof. intros H. unfold Http.Redirect. protect. Qed.

Lemma ServeFile_protected w r name : protected w -> protected (Http.ServeFile w r name).
Proof. apply writeChunk_protected. Qed.

#[local] Hint Resolve Error_protected NotFound_protected Redirect_protected
  ServeFile_protected : protect.

Section Handlers.

Context {sorter : Sort.Sorter}.
Variable env : Os.Env.
Variable staticFS : string -> option string.
Variable TypeByExtension : string -> string.

Lemma serveEmbeddedFile_protected w r path forced :
  protected w ->
  protected (serveEmbeddedFile staticFS TypeByExtension w r path forced).
Proof.
  intros H. unfold serveEmbeddedFile.
  destruct (staticFS path); [|now apply NotFound_protected]. protect.
Qed.

#[local] Hint Resolve serveEmbeddedFile_protected : protect.

Lemma handleRoot_keeps : keepsHeaders (handleRoot staticFS TypeByExtension).
Proof. intros w r H. unfold handleRoot. protect. Qed.

Lemma handleInfo_keeps : keepsHeaders (handleInfo staticFS TypeByExtension).
Proof. intros w r H. unfold handleInfo. protect. Qed.

Lemma handleStatic_keeps : keepsHeaders (handleStatic staticFS TypeByExtension).
Proof. intros w r H. unfold handleStatic. protect. Qed.

Lemma handleApiPhotos_keeps dir : keepsHeaders (handleApiPhotos env dir).
Proof. intros w r H. unfold handleApiPhotos. protect. Qed.

Lemma handlePhotos_keeps dir : keepsHeaders (handlePhotos env TypeByExtension dir).
Proof. intros w r H. unfold handlePhotos. protect. Qed.

Lemma handleHealthz_keeps : keepsHeaders handleHealthz.
Proof. intros w r H. unfold handleHealthz. protect. Qed.

End Handlers.

Lemma matchPath_In mux path pattern h :
  Http.matchPath mux path = Some (pattern, h) -> In (pattern, h) mux.
Proof.
  induction mux as [|[p' h'] mux IH]; simpl; [discriminate|].
  destruct (Http.patternMatches p' path).
  - destruct (Http.matchPath mux path) as [[p'' h'']|].
    + destruct (length p'' <=? length p')%nat; intros [= <- <-]; auto.
    + intros [= <- <-]. auto.
  - auto.
Qed.

Lemma matched_keeps mux path :
  Forall (fun ph => keepsHeaders (snd ph)) mux ->
  keepsHeaders match Http.matchPath mux path with
               | Some (_, h) => h
               | None => Http.NotFound
               end.
Proof.
  intros Hmux. destruct (Http.matchPath mux path) as [[p h]|] eqn:Hm.
  - apply matchPath_In in Hm. rewrite Forall_forall in Hmux. exact (Hmux _ Hm).
  - intros w r. apply NotFound_protected.
Qed.

Lemma matchOrRedirect_cases mux path u :
  Http.matchOrRedirect mux path u = (Http.matchPath mux path, None)
  \/ exists target, Http.matchOrRedirect mux path u = (None, Some target).
Proof.
  unfold Http.matchOrRedirect. destruct u as [u|]; [|now left].
  match goal with |- context [if ?b then _ else _] => destruct b end;
    [right; eauto | now left].
Qed.

Lemma findHandler_keeps mux r :
  Forall (fun ph => keepsHeaders (snd ph)) mux ->
  keepsHeaders (Http.findHandler mux r).
Proof.
  intros Hmux. unfold Http.findHandler.
  destruct (Http.Method r =? "CONNECT").
  - destruct (matchOrRedirect_cases mux (Http.Path (Http.Url r)) (Some (Http.Url r)))
      as [-> | [target ->]].
    + simpl. now apply matched_keeps.
    + intros w r'. apply Redirect_protected.
  - destruct (matchOrRedirect_cases mux (Http.cleanPath (Http.Path (Http.Url r)))
                (Some (Http.Url r))) as [-> | [target ->]].
    + destruct (negb _).
      * intros w r'. apply Redirect_protected.
      * now apply matched_keeps.
    + intros w r'. apply Redirect_protected.
Qed.

Section Server.

Context {sorter : Sort.Sorter}.
Variable env : Os.Env.
Variable staticFS : string -> option string.
Variable TypeByExtension : string -> string.

Local Abbreviation routes := (routes env staticFS TypeByExtension).
Local Abbreviation server := (serverHandler env staticFS TypeByExtension).

Lemma routes_keep dir : Forall (fun ph => keepsHeaders (snd ph)) (routes dir).
Proof.
  unfold Http.HandleFunc. simpl.
  repeat apply Forall_cons; try apply Forall_nil; simpl.
  - apply handleRoot_keeps.
  - apply handleInfo_keeps.
  - apply handleStatic_keeps.
  - apply handleApiPhotos_keeps.
  - apply handlePhotos_keeps.
  - apply handleHealthz_keeps.
Qed.

Lemma ServeHTTP_keeps dir : keepsHeaders (Http.ServeHTTP (routes dir)).
Proof. intros w r. apply findHandler_keeps, routes_keep. Qed.

Lemma securityHeaders_carries next r :
  keepsHeaders next -> carries (Http.RespHeader (respond (securityHeaders next) r)).
Proof.
  intros Hnext. unfold respond. rewrite finish_outgoing.
  apply Hnext. repeat constructor.
Qed.

(** Every response of the routing layer carries the security headers. *)
Lemma routing_carries dir r :
  carries (Http.RespHeader (respond (securityHeaders (Http.ServeHTTP (routes dir))) r)).
Proof. apply securityHeaders_carries, ServeHTTP_keeps. Qed.

Lemma serverHandler_passes token dir r :
  gateReplies token r = false ->
  respond (server token dir) r
  = respond (securityHeaders (Http.ServeHTTP (routes dir))) r.
Proof.
  unfold gateReplies, serverHandler. intros Hg.
  destruct (String.eqb_spec token "") as [->|Htoken]; [reflexivity|].
  simpl in *.
  destruct (String.eqb_spec (Http.Path (Http.Url r)) "/healthz") as [Hp|Hp].
  - unfold respond, authMiddleware. now rewrite Hp.
  - simpl in Hg. rewrite (respond_authMiddleware token Htoken r Hp).
    apply orb_false_iff in Hg as [-> Hg]. apply negb_false_iff in Hg.
    now rewrite Hg.
Qed.

Lemma serverHandler_replies token dir r :
  gateReplies token r = true ->
  let resp := respond (server token dir) r in
  (Http.RespStatus resp = 302 \/ Http.RespStatus resp = 401)
  /\ carriesNone (Http.RespHeader resp).
Proof.
  unfold gateReplies, serverHandler. intros Hg.
  destruct (String.eqb_spec token "") as [->|Htoken]; [discriminate|].
  destruct (String.eqb_spec (Http.Path (Http.Url r)) "/healthz") as [Hp|Hp];
    [discriminate|].
  simpl in *. rewrite (respond_authMiddleware token Htoken r Hp).
  destruct (presentsQueryToken token r).
  - split; [left; apply exchange_response|].
    unfold respond, Http.Redirect. simpl.
    destruct (Http.Method r =? "GET"); simpl; [repeat constructor|].
    destruct (Http.Method r =? "HEAD"); simpl; repeat constructor.
  - simpl in Hg. apply negb_true_iff in Hg. rewrite Hg.
    split; [now right|]. repeat constructor.
Qed.

(** C1, amended.  Every response of the routing layer carries the five
    security headers: with no token configured that is every response, and
    with a token it is every response to a request the gate lets through,
    [/healthz] included.  The replies of the gate itself, the 401 page and
    the 302 exchange redirect, are written outside the wrapper and carry
    none of the five. *)
Theorem security_headers_where_routed token dir r :
  let resp := respond (server token dir) r in
  (gateReplies token r = false -> carries (Http.RespHeader resp))
  /\ (gateReplies token r = true ->
      (Http.RespStatus resp = 302 \/ Http.RespStatus resp = 401)
      /\ carriesNone (Http.RespHeader resp)).
Proof.
  split.
  - intros Hg. rewrite (serverHandler_passes token dir r Hg).
    apply routing_carries.
  - apply serverHandler_replies.
Qed.

End Server.

Lemma security_headers_where_routed_witness :
  gateReplies "s3cret" Sample.staleQueryWithCookie = false
  /\ carries (Http.RespHeader
               (respond (Sample.server "s3cret") Sample.staleQueryWithCookie))
  /\ gateReplies "s3cret" Sample.firstVisit = true
  /\ carriesNone (Http.RespHeader (respond (Sample.server "s3cret") Sample.firstVisit)).
Proof.
  split; [reflexivity|]. split.
  - apply (security_headers_where_routed (sorter := Sort.insertion)
             Sample.env Sample.staticFS Sample.TypeByExtension
             "s3cret" "/photos" Sample.staleQueryWithCookie).
    reflexivity.
  - split; [reflexivity|].
    apply (security_headers_where_routed (sorter := Sort.insertion)
             Sample.env Sample.staticFS Sample.TypeByExtension
             "s3cret" "/photos" Sample.firstVisit).
    reflexivity.
Defined.

(** C1 as stated fails on the replies of the gate: the 401 page and the 302
    exchange redirect have no [X-Frame-Options] header, nor any other of the
    five. *)
Lemma gate_replies_without_security_headers :
  Http.RespStatus (respond (Sample.server "s3cret") (Sample.request "GET" "/")) = 401
  /\ Http.hasKey
       (Http.RespHeader (respond (Sample.server "s3cret") (Sample.request "GET" "/")))
       "X-Frame-Options" = false
  /\ ~ carries
       (Http.RespHeader (respond (Sample.server "s3cret") (Sample.request "GET" "/")))
  /\ Http.RespStatus (respond (Sample.server "s3cret") Sample.firstVisit) = 302
  /\ ~ carries (Http.RespHeader (respond (Sample.server "s3cret") Sample.firstVisit)).
Proof.
  split; [reflexivity|]. split; [reflexivity|]. split; [|split; [reflexivity|]].
  - intros H. inversion H as [|kv l Hhead Htail]. discriminate Hhead.
  - intros H. inversion H as [|kv l Hhead Htail]. discriminate Hhead.
Qed.

(** ** The health check *)

Section Healthz.

Context {sorter : Sort.Sorter}.
Variable env : Os.Env.
Variable staticFS : string -> option string.
Variable TypeByExtension : string -> string.

Lemma ServeHTTP_healthz dir w r :
  Http.Path (Http.Url r) = "/healthz" ->
  Http.ServeHTTP (routes env staticFS TypeByExtension dir) w r = handleHealthz w r.
Proof.
  intros Hp. unfold Http.ServeHTTP, Http.findHandler. rewrite Hp.
  now destruct (Http.Method r =? "CONNECT").
Qed.

(** C8.  A request to [/healthz] gets status 200 and the plain-text body
    [ok], with or without a token configured and whatever credentials it
    carries; with a token configured, a request to any other path that
    presents no matching credential gets status 401. *)
Theorem healthz_always_ok token dir r :
  (Http.Path (Http.Url r) = "/healthz" ->
   let resp := respond (serverHandler env staticFS TypeByExtension token dir) r in
   Http.RespStatus resp = 200
   /\ Http.RespBody resp = [Http.Bytes "ok"]
   /\ Http.Get (Http.RespHeader resp) "Content-Type" = "text/plain; charset=utf-8")
  /\ (token <> "" ->
      Http.Path (Http.Url r) <> "/healthz" ->
      presentsQueryToken token r = false ->
      presentsCookie token r = false ->
      presentsBearer token r = false ->
      Http.RespStatus
        (respond (serverHandler env staticFS TypeByExtension token dir) r) = 401).
Proof.
  split.
  - intros Hp.
    assert (respond (serverHandler env staticFS TypeByExtension token dir) r
            = respond (securityHeaders handleHealthz) r) as ->.
    { unfold serverHandler, respond.
      destruct (negb (token =? "")).
      - unfold authMiddleware. rewrite Hp. simpl.
        unfold securityHeaders. now rewrite ServeHTTP_healthz.
      - unfold securityHeaders. now rewrite ServeHTTP_healthz. }
    repeat split.
  - intros Htoken Hp Hq Hc Hb. unfold serverHandler.
    rewrite (proj2 (String.eqb_neq token "") Htoken). simpl.
    now rewrite (respond_authMiddleware token Htoken r Hp), Hq, Hc, Hb.
Qed.

End Healthz.

Lemma healthz_always_ok_witness :
  Http.Path (Http.Url Sample.healthzWithToken) = "/healthz"
  /\ Http.RespStatus (respond (Sample.server "s3cret") Sample.healthzWithToken) = 200
  /\ Http.RespStatus (respond (Sample.server "") Sample.healthzWithToken) = 200
  /\ "s3cret" <> ""
  /\ Http.RespStatus (respond (Sample.server "s3cret") (Sample.request "GET" "/info"))
     = 401.
Proof.
  assert ("s3cret" <> "") as Htoken by discriminate.
  split; [reflexivity|]. split; [|split; [|split; [exact Htoken|]]].
  - apply (healthz_always_ok (sorter := Sort.insertion) Sample.env Sample.staticFS
             Sample.TypeByExtension "s3cret" "/photos" Sample.healthzWithToken).
    reflexivity.
  - apply (healthz_always_ok (sorter := Sort.insertion) Sample.env Sample.staticFS
             Sample.TypeByExtension "" "/photos" Sample.healthzWithToken).
    reflexivity.
  - apply (healthz_always_ok (sorter := Sort.insertion) Sample.env Sample.staticFS
             Sample.TypeByExtension "s3cret" "/photos" (Sample.request "GET" "/info"));
      [exact Htoken | discriminate | reflexivity | reflexivity | reflexivity].
Defined.

(** ** Paths

    The elements of a path: [Split] at the separator and [Join] are each
    other's inverse on elements that hold no separator. *)

Lemma Contains_slash_cons c r :
  Strings.Contains (String c r) "/" = Ascii.eqb c "/" || Strings.Contains r "/".
Proof.
  cbn [Strings.Contains]. unfold Strings.HasPrefix. cbn [Strings.CutPrefix].
  rewrite (Ascii.eqb_sym "/" c). now destruct (Ascii.eqb c "/").
Qed.

Lemma slashFree_cons c r :
  slashFree (String c r) <-> c <> "/"%char /\ slashFree r.
Proof.
  unfold slashFree. rewrite Contains_slash_cons, orb_false_iff, Ascii.eqb_neq.
  reflexivity.
Qed.

Lemma Split_cons sep s : exists h t, Strings.Split sep s = h :: t.
Proof.
  destruct s as [|c r]; simpl; [eauto|].
  destruct (Ascii.eqb c sep); [eauto|].
  destruct (Strings.Split sep r); eauto.
Qed.

Lemma Split_app sep a b :
  Strings.Split sep (a ++ String sep b) = (Strings.Split sep a ++ Strings.Split sep b)%list.
Proof.
  induction a as [|c a IH]; simpl.
  - now rewrite Ascii.eqb_refl.
  - destruct (Ascii.eqb c sep); [now rewrite IH|].
    rewrite IH. destruct (Split_cons sep a) as (h & t & ->). reflexivity.
Qed.

Lemma Split_slashFree s : slashFree s -> Strings.Split "/" s = [s].
Proof.
  induction s as [|c r IH]; [reflexivity|].
  intros H. apply slashFree_cons in H as [Hc Hr]. simpl.
  rewrite (proj2 (Ascii.eqb_neq c "/") Hc), (IH Hr). reflexivity.
Qed.

Lemma Split_elements_slashFree s : Forall slashFree (Strings.Split "/" s).
Proof.
  induction s as [|c r IH]; simpl.
  - repeat constructor.
  - destruct (Ascii.eqb_spec c "/") as [->|Hc].
    + constructor; [reflexivity|exact IH].
    + destruct (Strings.Split "/" r) as [|h t]; [repeat constructor|].
      * apply slashFree_cons. split; [exact Hc|reflexivity].
      * inversion IH; subst. constructor; [|assumption].
        apply slashFree_cons. now split.
Qed.

Lemma Join_cons_cons x y l :
  Strings.Join (x :: y :: l) "/" = (x ++ String "/" (Strings.Join (y :: l) "/"))%string.
Proof. reflexivity. Qed.

Lemma Split_Join l :
  Forall slashFree l -> l <> [] -> Strings.Split "/" (Strings.Join l "/") = l.
Proof.
  induction l as [|x l IH]; [congruence|]. intros Hl _.
  inversion Hl as [|? ? Hx Hl']; subst.
  destruct l as [|y l]; [now apply Split_slashFree|].
  rewrite Join_cons_cons, Split_app, (Split_slashFree x Hx), IH; [reflexivity| |];
    [assumption | discriminate].
Qed.

Lemma Join_snoc l x :
  l <> [] ->
  Strings.Join (l ++ [x]) "/" = (Strings.Join l "/" ++ String "/" x)%string.
Proof.
  induction l as [|y l IH]; [congruence|]. intros _.
  destruct l as [|z l]; [reflexivity|].
  change ((y :: z :: l) ++ [x])%list with (y :: (z :: l) ++ [x])%list.
  change ((z :: l) ++ [x])%list with (z :: (l ++ [x]))%list at 1.
  rewrite Join_cons_cons.
  change (z :: (l ++ [x]))%list with ((z :: l) ++ [x])%list.
  rewrite IH by discriminate.
  rewrite Join_cons_cons.
  generalize (Strings.Join (z :: l) "/") as j. intros j.
  induction y as [|c y IHy]; simpl; [reflexivity|]. now rewrite IHy.
Qed.

(** *** Cleaning a rooted path *)

Lemma fileElem_spec e :
  fileElem e = true <-> e <> "" /\ e <> "." /\ e <> ".." /\ slashFree e.
Proof.
  unfold fileElem, slashFree.
  rewrite !andb_true_iff, !negb_true_iff, !String.eqb_neq. tauto.
Qed.

Lemma cleanStep_fileElem rooted out e :
  fileElem e = true -> Filepath.cleanStep rooted out e = e :: out.
Proof.
  intros H. apply fileElem_spec in H as (H1 & H2 & H3 & _).
  unfold Filepath.cleanStep.
  now rewrite (proj2 (String.eqb_neq _ _) H1), (proj2 (String.eqb_neq _ _) H2),
    (proj2 (String.eqb_neq _ _) H3).
Qed.

Lemma cleanStep_rooted_fileElems out e :
  slashFree e -> Forall (fun x => fileElem x = true) out ->
  Forall (fun x => fileElem x = true) (Filepath.cleanStep true out e).
Proof.
  intros He Hout. unfold Filepath.cleanStep.
  destruct (String.eqb_spec e "") as [->|H1]; [exact Hout|].
  destruct (String.eqb_spec e ".") as [->|H2]; [exact Hout|]. simpl.
  destruct (String.eqb_spec e "..") as [->|H3].
  - destruct out as [|last before]; [constructor|].
    inversion Hout as [|? ? Hlast Hbefore]; subst.
    apply fileElem_spec in Hlast as (_ & _ & Hlast & _).
    now rewrite (proj2 (String.eqb_neq _ _) Hlast).
  - constructor; [|exact Hout]. apply fileElem_spec. tauto.
Qed.

Lemma fold_cleanStep_fileElems elems out :
  Forall slashFree elems -> Forall (fun x => fileElem x = true) out ->
  Forall (fun x => fileElem x = true) (fold_left (Filepath.cleanStep true) elems out).
Proof.
  revert out. induction elems as [|e elems IH]; intros out He Hout; [exact Hout|].
  inversion He; subst. simpl. apply IH; [assumption|].
  now apply cleanStep_rooted_fileElems.
Qed.

Lemma absElems_fileElems p : Forall (fun x => fileElem x = true) (absElems p).
Proof.
  unfold absElems, Filepath.cleanElems. apply Forall_rev.
  apply fold_cleanStep_fileElems; [apply Split_elements_slashFree|constructor].
Qed.

Lemma fold_cleanStep_id rooted l out :
  Forall (fun x => fileElem x = true) l ->
  fold_left (Filepath.cleanStep rooted) l out = (rev l ++ out)%list.
Proof.
  revert out. induction l as [|e l IH]; intros out Hl; [reflexivity|].
  inversion Hl; subst. simpl.
  rewrite cleanStep_fileElem, IH, <- app_assoc by assumption. reflexivity.
Qed.

Lemma IsAbs_cons p : Filepath.IsAbs p = true -> exists rest, p = String "/" rest.
Proof.
  destruct p as [|c rest]; [discriminate|]. simpl.
  intros H. apply Ascii.eqb_eq in H. subst. eauto.
Qed.

Lemma Clean_abs p : Filepath.IsAbs p = true -> Filepath.Clean p = render (absElems p).
Proof.
  intros H. unfold Filepath.Clean. rewrite H.
  destruct (IsAbs_cons p H) as [rest ->]. reflexivity.
Qed.

Lemma fileElems_slashFree l :
  Forall (fun x => fileElem x = true) l -> Forall slashFree l.
Proof.
  apply Forall_impl. intros e He. now apply fileElem_spec in He.
Qed.

Lemma Split_render l :
  Forall (fun x => fileElem x = true) l ->
  Strings.Split "/" (render l) = "" :: match l with [] => [""] | _ => l end.
Proof.
  intros Hl. unfold render. cbn [Strings.Split]. rewrite Ascii.eqb_refl. f_equal.
  destruct l as [|x l]; [reflexivity|].
  apply Split_Join; [now apply fileElems_slashFree|discriminate].
Qed.

Lemma absElems_render l :
  Forall (fun x => fileElem x = true) l -> absElems (render l) = l.
Proof.
  intros Hl. unfold absElems, Filepath.cleanElems. rewrite (Split_render l Hl).
  destruct l as [|x l]; [reflexivity|].
  change ("" :: x :: l) with ([""] ++ x :: l)%list. rewrite fold_left_app.
  change (fold_left (Filepath.cleanStep true) [""] []) with (@nil string).
  rewrite (fold_cleanStep_id true (x :: l) [] Hl), app_nil_r.
  apply rev_involutive.
Qed.

Lemma Clean_render l :
  Forall (fun x => fileElem x = true) l -> Filepath.Clean (render l) = render l.
Proof.
  intros Hl. rewrite Clean_abs by reflexivity. now rewrite absElems_render.
Qed.

Lemma elements_render l :
  Forall (fun x => fileElem x = true) l -> Filepath.elements (render l) = l.
Proof.
  intros Hl. unfold Filepath.elements, Filepath.Separator.
  rewrite (Split_render l Hl). simpl.
  destruct l as [|x l]; [reflexivity|].
  apply forallb_filter_id. apply forallb_forall. rewrite Forall_forall in Hl.
  intros e He. apply Hl, fileElem_spec in He as (He & _).
  now rewrite (proj2 (String.eqb_neq _ _) He).
Qed.

Lemma render_inj l1 l2 :
  Forall (fun x => fileElem x = true) l1 ->
  Forall (fun x => fileElem x = true) l2 ->
  render l1 = render l2 -> l1 = l2.
Proof.
  intros H1 H2 Heq. rewrite <- (elements_render l1 H1), <- (elements_render l2 H2).
  now rewrite Heq.
Qed.

Lemma render_root l :
  Forall (fun x => fileElem x = true) l ->
  (render l =? "/") = match l with [] => true | _ => false end.
Proof.
  intros Hl. destruct l as [|x l]; [reflexivity|].
  inversion Hl as [|? ? Hx _]; subst.
  apply fileElem_spec in Hx as (Hx & _).
  destruct x as [|c x]; [congruence|].
  unfold render. destruct l; reflexivity.
Qed.

Lemma child_render l name :
  Forall (fun x => fileElem x = true) l ->
  child (render l) name = render (l ++ [name]).
Proof.
  intros Hl. unfold child. rewrite (render_root l Hl).
  destruct l as [|x l]; [reflexivity|].
  unfold render. rewrite Join_snoc by discriminate. reflexivity.
Qed.

Lemma slashFree_not_dotdot_prefix s :
  slashFree s -> Strings.HasPrefix s "../" = false.
Proof.
  intros H. unfold Strings.HasPrefix.
  destruct s as [|a [|b [|c r]]]; cbn [Strings.CutPrefix];
    try (destruct (Ascii.eqb "." a); [|reflexivity]);
    try (destruct (Ascii.eqb "." b); [|reflexivity]);
    try reflexivity.
  apply slashFree_cons in H as (_ & H). apply slashFree_cons in H as (_ & H).
  apply slashFree_cons in H as (H & _).
  now rewrite (proj2 (Ascii.eqb_neq "/" c)) by congruence.
Qed.

(** *** The last element of a path *)

Lemma lastNonEmpty_Some l e :
  Filepath.lastNonEmpty l = Some e -> In e l /\ e <> "".
Proof.
  induction l as [|x l IH]; simpl; [discriminate|].
  destruct (String.eqb_spec x "") as [->|Hx].
  - intros H. destruct (IH H). auto.
  - intros [= <-]. auto.
Qed.

Lemma Base_cases p :
  Filepath.Base p = "/" \/ (Filepath.Base p <> "" /\ slashFree (Filepath.Base p)).
Proof.
  unfold Filepath.Base. destruct (p =? ""); [right; split; [discriminate|reflexivity]|].
  destruct (Filepath.lastNonEmpty _) as [e|] eqn:He; [right|now left].
  apply lastNonEmpty_Some in He as [Hin Hne]. split; [exact Hne|].
  apply in_rev in Hin.
  pose proof (Split_elements_slashFree p) as Hall. rewrite Forall_forall in Hall.
  now apply Hall.
Qed.

(** *** Joining an element to a rooted directory *)

Lemma IsAbs_app base s : Filepath.IsAbs base = true -> Filepath.IsAbs (base ++ s) = true.
Proof. intros H. destruct (IsAbs_cons base H) as [rest ->]. reflexivity. Qed.

Lemma Join_abs base seg :
  Filepath.IsAbs base = true ->
  Filepath.Join [base; seg] = render (absElems (base ++ String "/" seg)).
Proof.
  intros H. destruct (IsAbs_cons base H) as [rest ->].
  cbn [Filepath.Join]. change (String "/" rest =? "") with false. cbv iota.
  change (Strings.Join [String "/" rest; seg] "/")
    with (String "/" rest ++ String "/" seg)%string.
  now apply Clean_abs.
Qed.

Lemma absElems_app base seg :
  absElems (base ++ String "/" seg)
  = rev (fold_left (Filepath.cleanStep true) (Strings.Split "/" seg)
                   (rev (absElems base))).
Proof.
  unfold absElems, Filepath.cleanElems.
  now rewrite Split_app, fold_left_app, rev_involutive.
Qed.

Lemma absElems_join_dot base seg :
  seg = "." \/ seg = "/" -> absElems (base ++ String "/" seg) = absElems base.
Proof.
  intros [-> | ->]; rewrite absElems_app; simpl; apply rev_involutive.
Qed.

Lemma absElems_join_fileElem base seg :
  fileElem seg = true ->
  absElems (base ++ String "/" seg) = (absElems base ++ [seg])%list.
Proof.
  intros H. rewrite absElems_app.
  rewrite Split_slashFree by now apply fileElem_spec in H.
  cbn [fold_left]. rewrite cleanStep_fileElem by exact H.
  simpl. now rewrite rev_involutive.
Qed.

Lemma absElems_join_dotdot base :
  (absElems base = [] /\ absElems (base ++ String "/" "..") = [])
  \/ exists last, absElems base = (absElems (base ++ String "/" "..") ++ [last])%list.
Proof.
  rewrite absElems_app. cbn [Strings.Split fold_left]. simpl Strings.Split.
  pose proof (absElems_fileElems base) as Hb.
  destruct (rev (absElems base)) as [|last before] eqn:Hrev.
  - left. apply (f_equal (@rev string)) in Hrev. rewrite rev_involutive in Hrev.
    now rewrite Hrev.
  - right. exists last.
    apply (f_equal (@rev string)) in Hrev. rewrite rev_involutive in Hrev.
    rewrite Hrev in Hb |- *. simpl in Hb. apply Forall_app in Hb as [_ Hlast].
    inversion Hlast as [|? ? Hl _]; subst.
    apply fileElem_spec in Hl as (_ & _ & Hl & _).
    simpl. unfold Filepath.cleanStep. simpl.
    now rewrite (proj2 (String.eqb_neq _ _) Hl).
Qed.

(** *** The relative path of a directory, its parent and its children *)

Lemma dropCommon_app l a b :
  Filepath.dropCommon (l ++ a) (l ++ b) = Filepath.dropCommon a b.
Proof.
  induction l as [|x l IH]; [reflexivity|]. simpl.
  now rewrite String.eqb_refl.
Qed.

Lemma app_snoc_neq {A} (l : list A) x : l <> (l ++ [x])%list.
Proof.
  intros H. apply (f_equal (@List.length A)) in H.
  rewrite length_app in H. simpl in H. lia.
Qed.

Lemma Rel_same l :
  Forall (fun x => fileElem x = true) l ->
  Filepath.Rel (render l) (render l) = Ok ".".
Proof.
  intros Hl. unfold Filepath.Rel. now rewrite Clean_render, String.eqb_refl.
Qed.

Lemma Rel_child l name :
  Forall (fun x => fileElem x = true) l -> fileElem name = true ->
  Filepath.Rel (render l) (render (l ++ [name])) = Ok name.
Proof.
  intros Hl Hname.
  assert (Forall (fun x => fileElem x = true) (l ++ [name])) as Hl'
    by (apply Forall_app; split; [exact Hl|now constructor]).
  unfold Filepath.Rel. rewrite !Clean_render by assumption.
  destruct (String.eqb_spec (render (l ++ [name])) (render l)) as [Heq|_].
  - apply render_inj in Heq; try assumption.
    symmetry in Heq. now apply app_snoc_neq in Heq.
  - change (render l =? ".") with false. cbv iota.
    change (Filepath.IsAbs (render l)) with true.
    change (Filepath.IsAbs (render (l ++ [name]))) with true. cbn [Bool.eqb negb].
    rewrite !elements_render by assumption.
    rewrite <- (app_nil_r l) at 1. rewrite dropCommon_app. reflexivity.
Qed.

Lemma Rel_parent l last :
  Forall (fun x => fileElem x = true) (l ++ [last]) ->
  Filepath.Rel (render (l ++ [last])) (render l) = Ok "..".
Proof.
  intros Hl'. pose proof Hl' as Hl. apply Forall_app in Hl as [Hl _].
  unfold Filepath.Rel. rewrite !Clean_render by assumption.
  destruct (String.eqb_spec (render l) (render (l ++ [last]))) as [Heq|_].
  - apply render_inj in Heq; try assumption. now apply app_snoc_neq in Heq.
  - change (render (l ++ [last]) =? ".") with false. cbv iota.
    change (Filepath.IsAbs (render l)) with true.
    change (Filepath.IsAbs (render (l ++ [last]))) with true. cbn [Bool.eqb negb].
    rewrite !elements_render by assumption.
    rewrite <- (app_nil_r l) at 2. rewrite dropCommon_app. reflexivity.
Qed.

(** *** [safeJoin] on an absolute base directory *)

Section SafeJoin.

Variable env : Os.Env.
Variable baseDir : string.
Hypothesis base_abs : Filepath.IsAbs baseDir = true.

Lemma safeJoin_unfold fileName :
  fileName <> "" ->
  safeJoin env baseDir fileName =
    (rel <- Filepath.Rel
              (render (absElems baseDir))
              (render (absElems (baseDir ++ String "/"
                                   (Filepath.Base (Filepath.Clean fileName))))) ;;
     if Strings.HasPrefix rel "../" || (rel =? "..")
     then Err "path escapes base dir"
     else Ok (render (absElems (baseDir ++ String "/"
                                  (Filepath.Base (Filepath.Clean fileName)))))).
Proof.
  intros Hne. unfold safeJoin.
  rewrite (proj2 (String.eqb_neq _ _) Hne). cbv zeta.
  rewrite (Join_abs baseDir _ base_abs).
  unfold Filepath.Abs. rewrite base_abs.
  change (Filepath.IsAbs (render ?l)) with true. cbv iota.
  rewrite (Clean_abs baseDir base_abs).
  rewrite Clean_render by apply absElems_fileElems.
  reflexivity.
Qed.

Lemma safeJoin_is_safeJoinSpec fileName :
  safeJoin env baseDir fileName = safeJoinSpec baseDir fileName.
Proof.
  unfold safeJoinSpec.
  destruct (String.eqb_spec fileName "") as [->|Hne]; [reflexivity|].
  rewrite (safeJoin_unfold fileName Hne). cbv zeta.
  rewrite (Clean_abs baseDir base_abs).
  pose proof (Base_cases (Filepath.Clean fileName)) as Hbase.
  remember (Filepath.Base (Filepath.Clean fileName)) as seg eqn:Hsegdef.
  clear Hsegdef.
  pose proof (absElems_fileElems baseDir) as Hb.
  destruct (String.eqb_spec seg ".") as [Hdot|Hndot];
    [|destruct (String.eqb_spec seg "/") as [Hroot|Hnroot]]; cbn [orb].
  - rewrite absElems_join_dot by now left. now rewrite Rel_same.
  - rewrite absElems_join_dot by now right. now rewrite Rel_same.
  - destruct (String.eqb_spec seg "..") as [Hdd|Hndd].
    + rewrite Hdd. rewrite (render_root _ Hb).
      destruct (absElems_join_dotdot baseDir) as [[Hnil ->]|[x Hx]].
      * rewrite Hnil. now rewrite Rel_same.
      * rewrite Hx in Hb |- *. rewrite (Rel_parent _ x Hb).
        cbn [bind]. destruct (absElems _); reflexivity.
    + assert (fileElem seg = true) as Hseg.
      { apply fileElem_spec. destruct Hbase as [Hr|[Hn Hs]]; [congruence|tauto]. }
      rewrite (absElems_join_fileElem baseDir seg Hseg).
      rewrite (Rel_child _ seg Hb Hseg). cbn [bind].
      rewrite slashFree_not_dotdot_prefix by now apply fileElem_spec in Hseg.
      rewrite (proj2 (String.eqb_neq _ _) Hndd). cbn [orb].
      now rewrite child_render.
Qed.

End SafeJoin.

Lemma Clean_IsAbs p : Filepath.IsAbs p = true -> Filepath.IsAbs (Filepath.Clean p) = true.
Proof. intros H. now rewrite Clean_abs. Qed.

Lemma child_IsAbs dir name : Filepath.IsAbs dir = true -> Filepath.IsAbs (child dir name) = true.
Proof.
  intros H. unfold child. destruct (dir =? "/"); [reflexivity|].
  now apply IsAbs_app.
Qed.

Lemma fileElem_not_special name :
  fileElem name = true -> name <> "." /\ name <> "/" /\ name <> "..".
Proof. intros H. repeat split; intros ->; discriminate H. Qed.

Lemma safeJoinSpec_cases baseDir fileName :
  let dir := Filepath.Clean baseDir in
  let last := Filepath.Base (Filepath.Clean fileName) in
  (fileName = "" /\ safeJoinSpec baseDir fileName = Err "empty name")
  \/ (fileName <> "" /\ (last = "." \/ last = "/" \/ (last = ".." /\ dir = "/"))
      /\ safeJoinSpec baseDir fileName = Ok dir)
  \/ (fileName <> "" /\ last = ".." /\ dir <> "/"
      /\ safeJoinSpec baseDir fileName = Err "path escapes base dir")
  \/ (fileName <> "" /\ fileElem last = true
      /\ safeJoinSpec baseDir fileName = Ok (child dir last)).
Proof.
  intros dir last. unfold safeJoinSpec. fold dir. fold last.
  pose proof (Base_cases (Filepath.Clean fileName)) as Hlast. fold last in Hlast.
  destruct (String.eqb_spec fileName "") as [Hempty|Hname]; [now left|].
  right.
  destruct (String.eqb_spec last ".") as [Hdot|Hndot]; cbn [orb]; [left; tauto|].
  destruct (String.eqb_spec last "/") as [Hroot|Hnroot]; [left; tauto|].
  destruct (String.eqb_spec last "..") as [Hdd|Hndd].
  - destruct (String.eqb_spec dir "/") as [Hd|Hd]; [left; tauto|right; left; tauto].
  - right. right. split; [exact Hname|]. split; [|reflexivity].
    apply fileElem_spec. destruct Hlast as [?|[? ?]]; [congruence|tauto].
Qed.

(** C2, amended.  For an absolute base directory, [safeJoin] either fails or
    returns an absolute path that is the cleaned base directory itself or a
    direct child of it.  It fails exactly when the name is empty or the last
    element of the cleaned name is [..] and the base is not the root; it
    returns the base itself when that element is [.] or [/], or is [..]
    under the root, and the child of that name otherwise. *)
Theorem safeJoin_stays_in_base env baseDir fileName :
  Filepath.IsAbs baseDir = true ->
  let dir := Filepath.Clean baseDir in
  let last := Filepath.Base (Filepath.Clean fileName) in
  (forall path, safeJoin env baseDir fileName = Ok path ->
     Filepath.IsAbs path = true /\ (path = dir \/ directChild dir path))
  /\ (is_ok (safeJoin env baseDir fileName) = false
      <-> fileName = "" \/ (last = ".." /\ dir <> "/"))
  /\ (fileName <> "" ->
      last = "." \/ last = "/" \/ (last = ".." /\ dir = "/") ->
      safeJoin env baseDir fileName = Ok dir)
  /\ (fileName <> "" -> fileElem last = true ->
      safeJoin env baseDir fileName = Ok (child dir last)).
Proof.
  intros Habs. cbv zeta.
  rewrite (safeJoin_is_safeJoinSpec env baseDir Habs fileName).
  pose proof (Clean_IsAbs baseDir Habs) as Hdir.
  pose proof (safeJoinSpec_cases baseDir fileName) as Hcases. cbv zeta in Hcases.
  remember (Filepath.Clean baseDir) as dir eqn:Edir.
  remember (Filepath.Base (Filepath.Clean fileName)) as last eqn:Elast.
  clear Edir Elast.
  pose proof (child_IsAbs dir last Hdir) as Hchild.
  destruct Hcases
    as [(Hname & ->) | [(Hname & Hlast & ->) | [(Hname & Hlast & Hd & ->)
       | (Hname & Hlast & ->)]]].
  - split; [discriminate|]. split; [|split]; [tauto | congruence | congruence].
  - split; [intros path [= <-]; auto|]. split; [|split].
    + split; [discriminate|]. intros [?|[? ?]]; [congruence|].
      destruct Hlast as [?|[?|[_ ?]]]; [subst last; congruence.. | congruence].
    + reflexivity.
    + intros _ Hfile. apply fileElem_not_special in Hfile.
      destruct Hlast as [?|[?|[? _]]]; tauto.
  - split; [discriminate|]. split; [|split].
    + split; auto.
    + intros _ [?|[?|[_ ?]]]; congruence.
    + intros _ Hfile. apply fileElem_not_special in Hfile. tauto.
  - pose proof (fileElem_not_special last Hlast) as (H1 & H2 & H3).
    split; [intros path [= <-]; split; [exact Hchild|]; right; now exists last|].
    split; [|split].
    + split; [discriminate|]. intros [?|[? _]]; congruence.
    + intros _ [?|[?|[? _]]]; congruence.
    + reflexivity.
Qed.

Lemma safeJoin_stays_in_base_witness :
  Filepath.IsAbs "/photos" = true
  /\ "../../etc/passwd" <> ""
  /\ fileElem (Filepath.Base (Filepath.Clean "../../etc/passwd")) = true
  /\ safeJoin Sample.env "/photos" "../../etc/passwd" = Ok "/photos/passwd"
  /\ is_ok (safeJoin Sample.env "/photos" "../..") = false.
Proof.
  pose proof (safeJoin_stays_in_base Sample.env "/photos" "../../etc/passwd" eq_refl)
    as (_ & _ & _ & Hchild).
  pose proof (safeJoin_stays_in_base Sample.env "/photos" "../.." eq_refl)
    as (_ & Hfails & _).
  split; [reflexivity|]. split; [discriminate|]. split; [reflexivity|]. split.
  - apply Hchild; [discriminate|reflexivity].
  - apply Hfails. right. split; [reflexivity|discriminate].
Defined.

(** C2 as stated fails on the name [.]: [safeJoin] returns the base
    directory, which is no child of itself. *)
Lemma safeJoin_returns_base_itself :
  safeJoin Sample.env "/photos" "." = Ok "/photos"
  /\ ~ directChild "/photos" "/photos".
Proof.
  split; [reflexivity|].
  intros (name & _ & Heq). unfold child in Heq. simpl in Heq. discriminate Heq.
Qed.

(** ** Names of directory entries *)





(** ** The scanner *)

Section Scanner.

Variable env : Os.Env.
Variable dir : string.
Hypothesis dir_abs : Filepath.IsAbs dir = true.





End Scanner.


(** ** The photo endpoint *)





Section PhotoEndpoint.

Variable env : Os.Env.
Variable TypeByExtension : string -> string.
Variable dir : string.



End PhotoEndpoint.




(** * Further properties of the program *)

(** ** Comparing and escaping *)

(** X1.  [constantTimeEqual] accepts exactly the equal byte strings: no
    prefix and no string of the same length but different bytes passes. *)
Theorem constantTimeEqual_true_iff a b :
  constantTimeEqual a b = true <-> a = b.
Proof. rewrite constantTimeEqual_eqb. apply String.eqb_eq. Qed.

Lemma bytesOf_app a b : bytesOf (a ++ b) = (bytesOf a ++ bytesOf b)%list.
Proof.
  unfold bytesOf. induction a as [|c a IH]; simpl; [reflexivity|]. now rewrite IH.
Qed.

Lemma lookupByte_bytes pairs (P : ascii -> Prop) c :
  Forall (fun kv => Forall P (bytesOf (snd kv))) pairs ->
  (Forall (fun kv => c <> fst kv) pairs -> P c) ->
  Forall P (bytesOf (Strings.lookupByte pairs c)).
Proof.
  induction pairs as [|[k v] pairs IH]; intros Hvalues Hother;
    cbn [Strings.lookupByte].
  - repeat constructor. apply Hother. constructor.
  - inversion Hvalues as [|? ? Hv Hrest]; subst.
    destruct (Ascii.eqb_spec c k) as [->|Hne]; [exact Hv|].
    apply IH; [exact Hrest|]. intros Hc. apply Hother. now constructor.
Qed.

Lemma Replace_bytes pairs (P : ascii -> Prop) :
  Forall (fun kv => Forall P (bytesOf (snd kv))) pairs ->
  (forall c, Forall (fun kv => c <> fst kv) pairs -> P c) ->
  forall s, Forall P (bytesOf (Strings.Replace pairs s)).
Proof.
  intros Hvalues Hother. induction s as [|c s IH]; [constructor|].
  cbn [Strings.Replace]. rewrite bytesOf_app. apply Forall_app. split; [|exact IH].
  apply lookupByte_bytes; [exact Hvalues|apply Hother].
Qed.

Lemma htmlEscape_bytes s :
  Forall (fun c => c <> "<"%char /\ c <> ">"%char /\ c <> "034"%char /\ c <> "'"%char)
         (bytesOf (htmlEscape s)).
Proof.
  apply Replace_bytes.
  - repeat constructor; discriminate.
  - intros c Hc.
    inversion Hc as [|? ? _ Hc1]; subst. inversion Hc1 as [|? ? Hlt Hc2]; subst.
    inversion Hc2 as [|? ? Hgt Hc3]; subst. inversion Hc3 as [|? ? Hdq Hc4]; subst.
    inversion Hc4 as [|? ? Hsq _]; subst. simpl in *. auto.
Qed.

(** X2.  [htmlEscape] never emits a byte that opens or closes markup or an
    attribute value: its output holds no [<], [>], double quote or single
    quote, whatever the input. *)
Theorem htmlEscape_emits_no_markup s :
  Forall (fun c => c <> "<"%char /\ c <> ">"%char /\ c <> "034"%char /\ c <> "'"%char)
         (bytesOf (htmlEscape s)).
Proof. exact (htmlEscape_bytes s). Qed.

(** X3.  [urlPathEscape] never emits a space, a [#] or a [?]: the escaped
    name cannot end the path of the URL it is put in. *)
Theorem urlPathEscape_emits_no_delimiter s :
  Forall (fun c => c <> " "%char /\ c <> "#"%char /\ c <> "?"%char)
         (bytesOf (urlPathEscape s)).
Proof.
  apply Replace_bytes.
  - repeat constructor; discriminate.
  - intros c Hc.
    inversion Hc as [|? ? _ Hc1]; subst. inversion Hc1 as [|? ? Hsp Hc2]; subst.
    inversion Hc2 as [|? ? Hhash Hc3]; subst. inversion Hc3 as [|? ? Hq _]; subst.
    simpl in *. auto.
Qed.

Lemma PathUnescape_escaped s : Url.PathUnescape (urlPathEscape s) = Ok s.
Proof.
  unfold urlPathEscape. induction s as [|c s IH]; [reflexivity|].
  cbn [Strings.Replace Strings.lookupByte].
  destruct (Ascii.eqb_spec c "%") as [->|Hpct].
  { cbn. unfold urlPathEscape in IH. now rewrite IH. }
  destruct (Ascii.eqb_spec c " ") as [->|Hsp].
  { cbn. now rewrite IH. }
  destruct (Ascii.eqb_spec c "#") as [->|Hhash].
  { cbn. now rewrite IH. }
  destruct (Ascii.eqb_spec c "?") as [->|Hq].
  { cbn. now rewrite IH. }
  cbn [append Url.PathUnescape].
  rewrite (proj2 (Ascii.eqb_neq c "%") Hpct), IH. reflexivity.
Qed.

(** X4.  Percent-decoding the escaped name gives the name back, for every
    name: what [urlPathEscape] writes into a URL the server reads as the same
    bytes. *)
Theorem urlPathEscape_roundtrip s :
  Url.PathUnescape (urlPathEscape s) = Ok s.
Proof. exact (PathUnescape_escaped s). Qed.

(** ** The extension allowlist *)


Lemma append_empty_r s : (s ++ "")%string = s.
Proof. induction s as [|c s IH]; simpl; [reflexivity|]. now rewrite IH. Qed.









(** ** The bearer token *)

Lemma TrimLeft_shorter_bounded n :
  forall s, (length s <= n)%nat ->
            Strings.TrimLeft s = s \/ (length (Strings.TrimLeft s) < length s)%nat.
Proof.
  induction n as [|n IH]; intros s Hlen.
  - destruct s; [now left|simpl in Hlen; lia].
  - destruct s as [|c r]; [now left|]. simpl in Hlen. cbn [Strings.TrimLeft].
    destruct (Strings.isSpace c).
    { right. destruct (IH r ltac:(lia)) as [-> | H]; simpl; lia. }
    destruct r as [|d r2]; [now left|]. simpl in Hlen.
    destruct (Strings.isSpace2 c d).
    { right. destruct (IH r2 ltac:(lia)) as [-> | H]; simpl; lia. }
    destruct r2 as [|e r3]; [now left|]. simpl in Hlen.
    destruct (Strings.isSpace3 c d e); [|now left].
    right. destruct (IH r3 ltac:(lia)) as [-> | H]; simpl; lia.
Qed.

Lemma TrimLeft_shorter s :
  Strings.TrimLeft s = s \/ (length (Strings.TrimLeft s) < length s)%nat.
Proof. apply (TrimLeft_shorter_bounded (length s)). lia. Qed.

Lemma TrimRight_shorter s :
  Strings.TrimRight s = s \/ (length (Strings.TrimRight s) < length s)%nat.
Proof.
  induction s as [|c r IH]; [now left|]. cbn [Strings.TrimRight]. cbv zeta.
  destruct IH as [-> | IH].
  - destruct (Strings.isSpaceRune (String c r)); [right; simpl; lia|now left].
  - right. destruct (Strings.isSpaceRune _); simpl; lia.
Qed.

Lemma TrimSpace_fixed s :
  Strings.TrimSpace s = s -> Strings.TrimLeft s = s /\ Strings.TrimRight s = s.
Proof.
  unfold Strings.TrimSpace. intros H.
  destruct (TrimLeft_shorter s) as [Hl|Hl].
  - rewrite Hl in H. now split.
  - exfalso. destruct (TrimRight_shorter (Strings.TrimLeft s)) as [Hr|Hr];
      rewrite H in Hr; [rewrite <- Hr in Hl|]; lia.
Qed.

Lemma TrimRight_keep c r kept :
  Strings.TrimRight r = kept ->
  Strings.isSpaceRune (String c kept) = false ->
  Strings.TrimRight (String c r) = String c kept.
Proof. intros Hr Hrune. cbn [Strings.TrimRight]. cbv zeta. now rewrite Hr, Hrune. Qed.

Lemma TrimSpace_Bearer t :
  t <> "" -> Strings.TrimSpace t = t ->
  Strings.TrimSpace ("Bearer " ++ t) = ("Bearer " ++ t)%string.
Proof.
  intros Hne Ht. apply TrimSpace_fixed in Ht as [_ Hr].
  unfold Strings.TrimSpace.
  change (Strings.TrimLeft ("Bearer " ++ t)) with ("Bearer " ++ t)%string.
  destruct t as [|t1 t']; [congruence|].
  change ("Bearer " ++ String t1 t')%string
    with (String "B" (String "e" (String "a" (String "r" (String "e" (String "r"
           (String " " (String t1 t'))))))))%string.
  repeat (apply TrimRight_keep; [|destruct t' as [|? [|? ?]]; reflexivity]).
  exact Hr.
Qed.

Lemma Contains_byte_cons c r k :
  Strings.Contains (String c r) (String k "")
  = Ascii.eqb c k || Strings.Contains r (String k "").
Proof.
  cbn [Strings.Contains]. unfold Strings.HasPrefix. cbn [Strings.CutPrefix].
  rewrite (Ascii.eqb_sym k c). now destruct (Ascii.eqb c k).
Qed.

Lemma SplitN2_whole sep s :
  Strings.Contains s (String sep "") = false -> Strings.SplitN2 sep s = [s].
Proof.
  induction s as [|c r IH]; [reflexivity|].
  rewrite Contains_byte_cons. intros H. apply orb_false_iff in H as [Hc Hr].
  cbn [Strings.SplitN2]. now rewrite Hc, (IH Hr).
Qed.

Lemma parseBearer_Bearer t :
  t <> "" -> Strings.TrimSpace t = t -> parseBearer ("Bearer " ++ t) = t.
Proof.
  intros Hne Ht. unfold parseBearer. cbv zeta.
  rewrite (TrimSpace_Bearer t Hne Ht).
  change (("Bearer " ++ t)%string =? "") with false. cbv iota.
  change (Strings.SplitN2 " " ("Bearer " ++ t)) with ["Bearer"; t].
  change (Strings.ToLower (Strings.TrimSpace "Bearer") =? "bearer") with true.
  exact Ht.
Qed.

(** X6.  [parseBearer] reads the token of [Bearer T] as T, for every
    non-empty T without white space around it, and reads no token from a
    header that, once trimmed, holds no space. *)
Theorem parseBearer_reads_token :
  (forall t, t <> "" -> Strings.TrimSpace t = t ->
             parseBearer ("Bearer " ++ t) = t)
  /\ (forall authz, Strings.Contains (Strings.TrimSpace authz) " " = false ->
                    parseBearer authz = "").
Proof.
  split; [exact parseBearer_Bearer|].
  - intros authz H. unfold parseBearer. cbv zeta.
    rewrite (SplitN2_whole " " _ H). now destruct (_ =? "").
Qed.

Lemma parseBearer_reads_token_witness :
  "s3cret" <> "" /\ Strings.TrimSpace "s3cret" = "s3cret"
  /\ parseBearer "Bearer s3cret" = "s3cret"
  /\ Strings.Contains (Strings.TrimSpace " Bearer ") " " = false
  /\ parseBearer " Bearer " = "".
Proof.
  destruct parseBearer_reads_token as [Hreads Hnone].
  split; [discriminate|]. split; [reflexivity|].
  split; [apply (Hreads "s3cret"); [discriminate|reflexivity]|].
  split; [reflexivity|apply Hnone; reflexivity].
Defined.

(** X7.  With a token configured that has no white space around it, a
    request to a path other than [/healthz] that carries the header
    [Authorization: Bearer] and the token, and no matching query token,
    reaches the wrapped handler; it needs no cookie. *)
Theorem bearer_header_opens_gate token r :
  token <> "" ->
  Strings.TrimSpace token = token ->
  Http.Path (Http.Url r) <> "/healthz" ->
  presentsQueryToken token r = false ->
  Http.Get (Http.ReqHeader r) "Authorization" = ("Bearer " ++ token)%string ->
  forall next, respond (authMiddleware token next) r = respond next r.
Proof.
  intros Htoken Htrim Hpath Hquery Hauth next.
  rewrite (respond_authMiddleware token Htoken r Hpath), Hquery.
  unfold presentsBearer. rewrite Hauth.
  rewrite (parseBearer_Bearer token Htoken Htrim), String.eqb_refl.
  now rewrite orb_true_r.
Qed.

(** ** The URLs of the listing *)

Lemma fold_scanEntry_Forall env dir (P : Photo -> Prop) :
  (forall photos e, Forall P photos -> Forall P (scanEntry env dir photos e)) ->
  forall entries photos,
    Forall P photos -> Forall P (fold_left (scanEntry env dir) entries photos).
Proof.
  intros Hstep. induction entries as [|e entries IH]; intros photos Hp; [exact Hp|].
  simpl. apply IH, Hstep, Hp.
Qed.

Lemma scanEntry_URL env dir photos e :
  Forall (fun p => URL p = photoURL (Name p) (Mtime p)) photos ->
  Forall (fun p => URL p = photoURL (Name p) (Mtime p)) (scanEntry env dir photos e).
Proof.
  intros Hp. unfold scanEntry.
  repeat match goal with
         | |- context [if ?b then _ else _] => destruct b
         | |- context [match ?x with _ => _ end] => destruct x
         end; try exact Hp.
  apply Forall_app. split; [exact Hp|]. repeat constructor.
Qed.

Lemma photoURL_path_no_query name :
  Forall (fun c => c <> "?"%char) (bytesOf ("/photos/" ++ urlPathEscape name)).
Proof.
  rewrite bytesOf_app. apply Forall_app. split; [repeat constructor; discriminate|].
  apply Replace_bytes.
  - repeat constructor; discriminate.
  - intros c Hc. inversion Hc as [|? ? _ Hc1]; subst.
    inversion Hc1 as [|? ? _ Hc2]; subst. inversion Hc2 as [|? ? _ Hc3]; subst.
    inversion Hc3 as [|? ? Hq _]; subst. exact Hq.
Qed.

(** X8.  Every photo [scanPhotos] returns has a URL made of a path, [?v=]
    and its mtime in decimal, where the path holds no [?] and
    percent-decodes to [/photos/] followed by the name of the photo: the
    URL of a listed photo names that photo and no other. *)
Theorem scanned_url_names_photo env dir photos :
  scanPhotos env dir = Ok photos ->
  Forall (fun p =>
            exists path,
              URL p = (path ++ "?v=" ++ NilZero.string_of_int (Z.to_int (Mtime p)))%string
              /\ Forall (fun c => c <> "?"%char) (bytesOf path)
              /\ Url.PathUnescape path = Ok ("/photos/" ++ Name p)%string)
         photos.
Proof.
  unfold scanPhotos. destruct (Os.ReadDir env dir) as [entries|msg]; [|discriminate].
  cbn [bind]. intros [= <-].
  eapply Forall_impl;
    [|apply (fold_scanEntry_Forall env dir _ (scanEntry_URL env dir)); constructor].
  intros p Hurl. exists ("/photos/" ++ urlPathEscape (Name p))%string.
  split; [|split].
  - rewrite Hurl. unfold photoURL. reflexivity.
  - apply photoURL_path_no_query.
  - cbn. now rewrite PathUnescape_escaped.
Qed.

(** ** Serving a listed photo *)

Lemma HasSuffixSlash_app a c r :
  Http.HasSuffixSlash (a ++ String c r) = Http.HasSuffixSlash (String c r).
Proof.
  induction a as [|x a IH]; [reflexivity|].
  change (String x a ++ String c r)%string with (String x (a ++ String c r)).
  rewrite <- IH. destruct a; reflexivity.
Qed.

Lemma HasSuffixSlash_slashFree s : slashFree s -> Http.HasSuffixSlash s = false.
Proof.
  induction s as [|c r IH]; [reflexivity|].
  intros H. apply slashFree_cons in H as [Hc Hr].
  destruct r as [|d r']; [now apply Ascii.eqb_neq|].
  exact (IH Hr).
Qed.


Section ServingPhotos.

Context {sorter : Sort.Sorter}.
Variable env : Os.Env.
Variable staticFS : string -> option string.
Variable TypeByExtension : string -> string.
Variable dir : string.




End ServingPhotos.


Lemma scanned_url_names_photo_witness :
  scanPhotos Sample.env "/photos" = Ok Sample.scanned
  /\ Forall (fun p =>
              exists path,
                URL p = (path ++ "?v=" ++ NilZero.string_of_int (Z.to_int (Mtime p)))%string
                /\ Forall (fun c => c <> "?"%char) (bytesOf path)
                /\ Url.PathUnescape path = Ok ("/photos/" ++ Name p)%string)
            Sample.scanned.
Proof.
  split; [reflexivity|].
  apply (scanned_url_names_photo Sample.env "/photos" Sample.scanned). reflexivity.
Defined.

Lemma bearer_header_opens_gate_witness :
  "s3cret" <> ""
  /\ Strings.TrimSpace "s3cret" = "s3cret"
  /\ respond (authMiddleware "s3cret" probe)
            (Sample.withHeader (Sample.request "GET" "/info")
                               "Authorization" "Bearer s3cret")
     = respond probe (Sample.withHeader (Sample.request "GET" "/info")
                                        "Authorization" "Bearer s3cret").
Proof.
  assert ("s3cret" <> "") as Htoken by discriminate.
  split; [exact Htoken|]. split; [reflexivity|].
  apply (bearer_header_opens_gate "s3cret"
           (Sample.withHeader (Sample.request "GET" "/info")
                              "Authorization" "Bearer s3cret")
           Htoken eq_refl); [discriminate|reflexivity|reflexivity].
Defined.

(** ** The listing endpoint *)

Section ListingEndpoint.

Context {sorter : Sort.Sorter} (law : Sort.Lawful sorter).
Variable env : Os.Env.
Variable dir : string.

(** X10.  The listing endpoint answers a method other than GET with status
    405 and [Allow: GET], whatever the state of the directory; a GET on a
    directory that cannot be listed gets status 500 and the same fixed body
    for every error, so that the text of the error never reaches the
    client. *)
Theorem listing_error_replies r :
  (Http.Method r <> "GET" ->
     let resp := respond (handleApiPhotos env dir) r in
     Http.RespStatus resp = 405
     /\ Http.Get (Http.RespHeader resp) "Allow" = "GET"
     /\ Http.RespBody resp = [Http.Bytes ("method not allowed" ++ String "010" "")])
  /\ (Http.Method r = "GET" ->
      forall msg, Os.ReadDir env dir = Err msg ->
        let resp := respond (handleApiPhotos env dir) r in
        Http.RespStatus resp = 500
        /\ Http.RespBody resp
           = [Http.Bytes ("failed to scan photos directory" ++ String "010" "")]
        /\ Http.Get (Http.RespHeader resp) "Content-Type" = "text/plain; charset=utf-8").
Proof.
  split.
  - intros Hm. unfold respond, handleApiPhotos, Http.MethodGet.
    rewrite (proj2 (String.eqb_neq _ _) Hm). repeat split.
  - intros Hm msg Hread. unfold respond, handleApiPhotos, scanPhotos, Http.MethodGet.
    rewrite Hm, Hread. repeat split.
Qed.

(** X11.  A successful listing is answered with status 200, the JSON
    content type and [Cache-Control: no-store]; the [count] of the document
    is the number of photos scanned, and [photos] holds as many items, or is
    [null] when there is none. *)
Theorem listing_count_matches r photos :
  Http.Method r = "GET" ->
  scanPhotos env dir = Ok photos ->
  let resp := respond (handleApiPhotos env dir) r in
  Http.RespStatus resp = 200
  /\ Http.Get (Http.RespHeader resp) "Content-Type" = "application/json; charset=utf-8"
  /\ Http.Get (Http.RespHeader resp) "Cache-Control" = "no-store"
  /\ exists fields,
       Http.RespBody resp = [Http.JsonDoc (Json.Object fields)]
       /\ Json.field fields "count" = Some (Json.Number (Z.of_nat (List.length photos)))
       /\ (photos = [] -> Json.field fields "photos" = Some Json.Null)
       /\ (photos <> [] ->
           exists items, Json.field fields "photos" = Some (Json.Array items)
                         /\ List.length items = List.length photos).
Proof.
  intros Hm Hscan. unfold respond, handleApiPhotos, Http.MethodGet.
  rewrite Hm, Hscan. cbv zeta.
  set (sorted := sortPhotos photos _).
  assert (List.length sorted = List.length photos) as Hlen
    by (symmetry; apply Permutation_length, (sortPhotos_Permutation law)).
  split; [reflexivity|]. split; [reflexivity|]. split; [reflexivity|].
  eexists. split; [reflexivity|]. cbn [Json.field String.eqb Ascii.eqb Bool.eqb].
  split; [simpl; now rewrite Hlen|]. split.
  - intros ->. destruct sorted; [reflexivity|discriminate Hlen].
  - intros Hne. simpl. destruct sorted as [|p sorted'] eqn:Hs.
    + destruct photos; [congruence|discriminate Hlen].
    + eexists. split; [reflexivity|]. rewrite <- Hlen. simpl. now rewrite length_map.
Qed.

End ListingEndpoint.

Lemma listing_error_replies_witness :
  Http.Method (Sample.request "POST" "/api/photos") <> "GET"
  /\ Http.RespStatus
       (respond (handleApiPhotos (sorter := Sort.insertion) Sample.env "/photos")
                (Sample.request "POST" "/api/photos")) = 405
  /\ Os.ReadDir Sample.env "/missing" = Err "no such file or directory"
  /\ Http.RespStatus
       (respond (handleApiPhotos (sorter := Sort.insertion) Sample.env "/missing")
                (Sample.request "GET" "/api/photos")) = 500.
Proof.
  assert (Http.Method (Sample.request "POST" "/api/photos") <> "GET") as Hpost
    by discriminate.
  split; [exact Hpost|]. split.
  - apply (listing_error_replies (sorter := Sort.insertion) Sample.env "/photos"
             (Sample.request "POST" "/api/photos")). exact Hpost.
  - split; [reflexivity|].
    apply (proj2 (listing_error_replies (sorter := Sort.insertion) Sample.env "/missing"
                    (Sample.request "GET" "/api/photos"))
                 eq_refl "no such file or directory" eq_refl).
Defined.

Lemma listing_count_matches_witness :
  Sort.Lawful Sort.insertion
  /\ Http.Method Sample.listingRequest = "GET"
  /\ scanPhotos Sample.env "/photos" = Ok Sample.scanned
  /\ Http.RespStatus
       (respond (handleApiPhotos (sorter := Sort.insertion) Sample.env "/photos")
                Sample.listingRequest) = 200.
Proof.
  split; [exact insertion_Lawful|]. split; [reflexivity|]. split; [reflexivity|].
  apply (listing_count_matches insertion_Lawful Sample.env "/photos"
           Sample.listingRequest Sample.scanned eq_refl eq_refl).
Defined.

(** ** The embedded files *)

Section EmbeddedFiles.

Variable staticFS : string -> option string.
Variable TypeByExtension : string -> string.

Lemma serveEmbeddedFile_found r path forced b :
  staticFS path = Some b ->
  let resp := Http.finish (serveEmbeddedFile staticFS TypeByExtension Http.newWriter r
                             path forced) in
  Http.RespStatus resp = 200
  /\ Http.RespBody resp = [Http.Bytes b]
  /\ Http.Get (Http.RespHeader resp) "Content-Type" <> ""
  /\ Http.Get (Http.RespHeader resp) "Cache-Control"
     = if Strings.HasPrefix path "static/" && negb (path =? "static/index.html")
          && negb (path =? "static/info.html")
       then "public, max-age=86400" else "no-store".
Proof.
  intros Hfile. unfold serveEmbeddedFile. rewrite Hfile. cbv zeta.
  destruct (Strings.HasPrefix path "static/" && negb (path =? "static/index.html")
            && negb (path =? "static/info.html"));
    (destruct (String.eqb_spec forced "") as [->|Hforced]; cbn [negb];
     [destruct (String.eqb_spec (TypeByExtension (Strings.ToLower (Filepath.Ext path))) "")
        as [Hct|Hct]; cbn [negb]|]);
    simpl; repeat split; try discriminate; assumption.
Qed.

(** X12.  The static route serves embedded files under [static/] and
    nothing else: for the path [/static/] and a rest, a file that is not
    embedded gets status 404, and an embedded one gets status 200 with its
    bytes, a content type that is never empty, and a cache header of one day
    unless the file is [index.html] or [info.html], which are not stored.
    Whatever the path, the bytes of a 200 reply are those of an embedded
    file whose name begins with [static/]. *)
Theorem static_route_serves_embedded r :
  let resp := respond (handleStatic staticFS TypeByExtension) r in
  (forall rest,
     Http.Path (Http.Url r) = ("/static/" ++ rest)%string ->
     match staticFS ("static/" ++ rest) with
     | None => Http.RespStatus resp = 404
     | Some b =>
         Http.RespStatus resp = 200
         /\ Http.RespBody resp = [Http.Bytes b]
         /\ Http.Get (Http.RespHeader resp) "Content-Type" <> ""
         /\ Http.Get (Http.RespHeader resp) "Cache-Control"
            = if (rest =? "index.html") || (rest =? "info.html")
              then "no-store" else "public, max-age=86400"
     end)
  /\ (Http.RespStatus resp = 200 ->
      exists path b,
        Strings.HasPrefix path "static/" = true
        /\ staticFS path = Some b
        /\ Http.RespBody resp = [Http.Bytes b]).
Proof.
  cbv zeta. split.
  - intros rest Hpath. unfold respond, handleStatic. rewrite Hpath. cbv zeta.
    change (Strings.TrimPrefix ("/static/" ++ rest) "/") with ("static/" ++ rest)%string.
    change (Strings.HasPrefix ("static/" ++ rest) "static/") with true. cbn [negb].
    destruct (staticFS ("static/" ++ rest)) as [b|] eqn:Hfile.
    + destruct (serveEmbeddedFile_found r _ "" b Hfile)
        as (Hs & Hb & Hct & Hcc).
      split; [exact Hs|]. split; [exact Hb|]. split; [exact Hct|].
      rewrite Hcc.
      change (Strings.HasPrefix ("static/" ++ rest) "static/") with true.
      change (("static/" ++ rest)%string =? "static/index.html")
        with (rest =? "index.html").
      change (("static/" ++ rest)%string =? "static/info.html")
        with (rest =? "info.html").
      now destruct (rest =? "index.html"), (rest =? "info.html").
    + unfold serveEmbeddedFile. now rewrite Hfile.
  - unfold respond, handleStatic. cbv zeta.
    destruct (Strings.HasPrefix (Strings.TrimPrefix (Http.Path (Http.Url r)) "/")
                                "static/") eqn:Hprefix; cbn [negb]; [|discriminate].
    destruct (staticFS (Strings.TrimPrefix (Http.Path (Http.Url r)) "/"))
      as [b|] eqn:Hfile.
    + intros _. exists (Strings.TrimPrefix (Http.Path (Http.Url r)) "/"), b.
      split; [exact Hprefix|]. split; [exact Hfile|].
      apply (serveEmbeddedFile_found r _ "" b Hfile).
    + unfold serveEmbeddedFile. rewrite Hfile. discriminate.
Qed.

End EmbeddedFiles.

Lemma static_route_serves_embedded_witness :
  Http.Path (Http.Url (Sample.request "GET" "/static/app.js")) = "/static/app.js"
  /\ Http.RespBody
       (respond (handleStatic Sample.staticFS Sample.TypeByExtension)
                (Sample.request "GET" "/static/app.js")) = [Http.Bytes "boot();"]
  /\ Http.RespStatus
       (respond (handleStatic Sample.staticFS Sample.TypeByExtension)
                (Sample.request "GET" "/static/missing.css")) = 404.
Proof.
  split; [reflexivity|]. split.
  - apply (proj1 (static_route_serves_embedded Sample.staticFS Sample.TypeByExtension
                    (Sample.request "GET" "/static/app.js")) "app.js" eq_refl).
  - apply (proj1 (static_route_serves_embedded Sample.staticFS Sample.TypeByExtension
                    (Sample.request "GET" "/static/missing.css")) "missing.css" eq_refl).
Defined.

(** ** Start-up *)


Section Startup.

Context {sorter : Sort.Sorter}.
Variable env : Os.Env.
Variable staticFS : string -> option string.
Variable TypeByExtension : string -> string.


End Startup.


(** ** Paths that no route serves *)

Lemma matchPath_matches mux path pattern h :
  Http.matchPath mux path = Some (pattern, h) ->
  In (pattern, h) mux /\ Http.patternMatches pattern path = true.
Proof.
  induction mux as [|[p' h'] mux IH]; simpl; [discriminate|].
  destruct (Http.patternMatches p' path) eqn:Hm.
  - destruct (Http.matchPath mux path) as [[p'' h'']|].
    + destruct (length p'' <=? length p')%nat; intros [= <- <-]; [auto|].
      destruct (IH eq_refl); auto.
    + intros [= <- <-]. auto.
  - intros H. destruct (IH H). auto.
Qed.

Lemma matchPath_found mux path pattern h :
  In (pattern, h) mux -> Http.patternMatches pattern path = true ->
  Http.matchPath mux path <> None.
Proof.
  induction mux as [|[p' h'] mux IH]; simpl; [tauto|].
  intros [[= -> ->]|Hin] Hm.
  - rewrite Hm. destruct (Http.matchPath mux path) as [[p'' h'']|];
      [destruct (length p'' <=? length pattern)%nat|]; discriminate.
  - specialize (IH Hin Hm).
    destruct (Http.patternMatches p' path); [|exact IH].
    destruct (Http.matchPath mux path) as [[p'' h'']|]; [|congruence].
    destruct (length p'' <=? length p')%nat; discriminate.
Qed.

Lemma HasSuffixSlash_snoc p : Http.HasSuffixSlash (p ++ "/") = true.
Proof.
  induction p as [|c p IH]; [reflexivity|].
  change (String c p ++ "/")%string with (String c (p ++ "/")).
  destruct p as [|d p]; [reflexivity|]. exact IH.
Qed.

Lemma append_slash_inj a b : (a ++ "/")%string = (b ++ "/")%string -> a = b.
Proof.
  revert b. induction a as [|c a IH]; intros [|d b]; simpl; intros H.
  - reflexivity.
  - injection H as _ H. destruct b; discriminate H.
  - injection H as _ H. destruct a; discriminate H.
  - injection H as -> H. f_equal. now apply IH.
Qed.

(** A pattern that ends in a separator is a prefix of a path only when the
    first element of the path is the element of the pattern. *)
Lemma CutPrefix_element p :
  forall x tail,
    slashFree p -> slashFree x ->
    tail = "" \/ (exists rest, tail = String "/" rest) ->
    Strings.CutPrefix (x ++ tail) (p ++ "/") <> None -> x = p.
Proof.
  induction p as [|a p IH]; intros x tail Hp Hx Htail Hcut.
  - destruct x as [|c x]; [reflexivity|]. exfalso.
    apply slashFree_cons in Hx as [Hc _].
    change (String c x ++ tail)%string with (String c (x ++ tail)) in Hcut.
    change (EmptyString ++ "/")%string with (String "/" EmptyString) in Hcut.
    cbn [Strings.CutPrefix] in Hcut.
    destruct (Ascii.eqb_spec "/" c) as [<-|_]; [now apply Hc|now apply Hcut].
  - apply slashFree_cons in Hp as [Ha Hp].
    change (String a p ++ "/")%string with (String a (p ++ "/")) in Hcut.
    destruct x as [|c x].
    + exfalso. destruct Htail as [-> | [rest ->]];
        cbn [append Strings.CutPrefix] in Hcut; [now apply Hcut|].
      destruct (Ascii.eqb_spec a "/") as [->|_]; [now apply Ha|now apply Hcut].
    + apply slashFree_cons in Hx as [_ Hx].
      change (String c x ++ tail)%string with (String c (x ++ tail)) in Hcut.
      cbn [Strings.CutPrefix] in Hcut.
      destruct (Ascii.eqb_spec a c) as [->|Hne]; [|now exfalso; apply Hcut].
      f_equal. now apply (IH x tail).
Qed.

Lemma render_cons x l :
  exists tail,
    render (x :: l) = String "/" (x ++ tail)
    /\ (tail = "" \/ exists rest, tail = String "/" rest).
Proof.
  destruct l as [|y l].
  - exists "". split; [|now left]. unfold render. simpl. now rewrite append_empty_r.
  - exists (String "/" (Strings.Join (y :: l) "/")). split; [reflexivity|]. right. eauto.
Qed.

Lemma append_String_slash a b c :
  ((a ++ b) ++ c)%string = (a ++ (b ++ c))%string.
Proof. induction a as [|x a IH]; simpl; [reflexivity|]. now rewrite IH. Qed.

Lemma prefixed_by_route x l p suffix :
  fileElem x = true -> slashFree p ->
  suffix = "" \/ suffix = "/" ->
  Strings.HasPrefix (render (x :: l) ++ suffix) (String "/" (p ++ "/")) = true ->
  x = p.
Proof.
  intros Hx Hp Hsuffix Hprefix. apply fileElem_spec in Hx as (_ & _ & _ & Hx).
  destruct (render_cons x l) as (tail & Hrender & Htail).
  rewrite Hrender in Hprefix. unfold Strings.HasPrefix in Hprefix.
  change (String "/" (x ++ tail) ++ suffix)%string
    with (String "/" ((x ++ tail) ++ suffix)) in Hprefix.
  cbn [Strings.CutPrefix] in Hprefix. rewrite Ascii.eqb_refl in Hprefix.
  rewrite append_String_slash in Hprefix.
  apply (CutPrefix_element p x (tail ++ suffix) Hp Hx).
  - destruct Htail as [-> | [rest ->]]; [|right; simpl; eauto].
    destruct Hsuffix as [-> | ->]; [now left|right; simpl; eauto].
  - now destruct (Strings.CutPrefix _ _).
Qed.

Lemma routed_head x l : x = "static" \/ x = "photos" -> routed (x :: l) = true.
Proof. intros [-> | ->]; destruct l; reflexivity. Qed.

Lemma HasSuffixSlash_render x l :
  Forall (fun x => fileElem x = true) (x :: l) ->
  Http.HasSuffixSlash (render (x :: l)) = false.
Proof.
  unfold render. revert x. induction l as [|y l IH]; intros x Hl.
  - inversion Hl as [|? ? Hx _]; subst.
    apply fileElem_spec in Hx as (Hne & _ & _ & Hfree).
    destruct x as [|c x]; [congruence|].
    change (String "/" (Strings.Join [String c x] "/"))
      with ("/" ++ String c x)%string.
    rewrite HasSuffixSlash_app. now apply HasSuffixSlash_slashFree.
  - inversion Hl as [|? ? Hx Hl']; subst.
    change (String "/" (Strings.Join (x :: y :: l) "/"))
      with (("/" ++ x) ++ String "/" (Strings.Join (y :: l) "/"))%string.
    rewrite HasSuffixSlash_app. now apply IH.
Qed.

Section UnroutedPaths.

Context {sorter : Sort.Sorter}.
Variable env : Os.Env.
Variable staticFS : string -> option string.
Variable TypeByExtension : string -> string.
Variable dir : string.
Variable l : list string.
Hypothesis elems : Forall (fun x => fileElem x = true) l.
Hypothesis unrouted : routed l = false.

Local Abbreviation mux := (routes env staticFS TypeByExtension dir).

(** The patterns of [main] that can match the path, or the path with a
    separator added: only the catch-all. *)
Lemma unrouted_matches pattern h suffix :
  suffix = "" \/ suffix = "/" ->
  In (pattern, h) mux ->
  Http.patternMatches pattern (render l ++ suffix) = true ->
  pattern = "/" /\ h = handleRoot staticFS TypeByExtension.
Proof.
  intros Hsuffix Hin Hm.
  assert (forall elems', Forall (fun x => fileElem x = true) elems' ->
            routed elems' = true -> pattern = render elems' ->
            Http.HasSuffixSlash pattern = false -> False) as Hexact.
  { intros elems' Helems' Hrouted -> Hslash.
    unfold Http.patternMatches in Hm. rewrite Hslash in Hm.
    apply String.eqb_eq in Hm. destruct Hsuffix as [-> | ->].
    - rewrite append_empty_r in Hm. apply render_inj in Hm; [|assumption..].
      subst elems'. congruence.
    - rewrite Hm, HasSuffixSlash_snoc in Hslash. discriminate. }
  assert (forall p, p = "static" \/ p = "photos" ->
            pattern = String "/" (p ++ "/") -> False) as Hprefix.
  { intros p Hp ->. destruct l as [|x l']; [discriminate unrouted|].
    inversion elems as [|? ? Hx _]; subst.
    assert (x = p) as ->.
    { apply (prefixed_by_route x l' p suffix Hx); [|exact Hsuffix|].
      - destruct Hp as [-> | ->]; reflexivity.
      - destruct Hp as [-> | ->]; exact Hm. }
    rewrite (routed_head p l' Hp) in unrouted. discriminate. }
  unfold routes, Http.HandleFunc in Hin. simpl in Hin.
  destruct Hin as [Hin|[Hin|[Hin|[Hin|[Hin|[Hin|[]]]]]]];
    injection Hin as <- <-.
  - now split.
  - exfalso. apply (Hexact ["info"]); repeat constructor.
  - exfalso. apply (Hprefix "static"); auto.
  - exfalso. apply (Hexact ["api"; "photos"]); repeat constructor.
  - exfalso. apply (Hprefix "photos"); auto.
  - exfalso. apply (Hexact ["healthz"]); repeat constructor.
Qed.

Lemma unrouted_nonempty : exists x l', l = x :: l'.
Proof. destruct l as [|x l']; [discriminate unrouted|eauto]. Qed.

Lemma unrouted_matchPath :
  Http.matchPath mux (render l) = Some ("/", handleRoot staticFS TypeByExtension).
Proof.
  destruct (Http.matchPath mux (render l)) as [[pattern h]|] eqn:Hmatch.
  - apply matchPath_matches in Hmatch as [Hin Hm].
    rewrite <- (append_empty_r (render l)) in Hm.
    destruct (unrouted_matches pattern h "" (or_introl eq_refl) Hin Hm) as [-> ->].
    reflexivity.
  - exfalso. revert Hmatch. apply (matchPath_found mux _ "/" (handleRoot staticFS TypeByExtension)).
    + unfold routes, Http.HandleFunc. simpl. now left.
    + reflexivity.
Qed.

Lemma unrouted_no_slash_redirect :
  Http.exactMatch (Http.matchPath mux (render l ++ "/")) (render l ++ "/") = false.
Proof.
  destruct (Http.matchPath mux (render l ++ "/")) as [[pattern h]|] eqn:Hmatch;
    [|reflexivity].
  apply matchPath_matches in Hmatch as [Hin Hm].
  destruct (unrouted_matches pattern h "/" (or_intror eq_refl) Hin Hm) as [-> ->].
  unfold Http.exactMatch. change (negb (Http.HasSuffixSlash "/")) with false.
  cbn [orb]. apply String.eqb_neq. intros Heq.
  change "/" with ("" ++ "/")%string in Heq at 1.
  apply append_slash_inj in Heq. discriminate Heq.
Qed.

Lemma unrouted_matchOrRedirect u :
  Http.matchOrRedirect mux (render l) u
  = (Some ("/", handleRoot staticFS TypeByExtension), None).
Proof.
  unfold Http.matchOrRedirect.
  rewrite unrouted_matchPath, unrouted_no_slash_redirect, andb_false_r.
  now destruct u.
Qed.

Lemma unrouted_cleanPath : Http.cleanPath (render l) = render l.
Proof.
  pose proof (Clean_render l elems) as Hclean.
  assert (Http.HasSuffixSlash (render l) = false) as Hslash.
  { destruct unrouted_nonempty as (x & l' & Hl). pose proof elems as Helems.
    rewrite Hl in Helems |- *. now apply HasSuffixSlash_render. }
  unfold Http.cleanPath.
  change (render l =? "") with false. change (Filepath.IsAbs (render l)) with true.
  cbv iota zeta. now rewrite Hclean, Hslash.
Qed.

Lemma unrouted_findHandler r :
  Http.Path (Http.Url r) = render l ->
  Http.findHandler mux r = handleRoot staticFS TypeByExtension.
Proof.
  intros Hpath. unfold Http.findHandler. rewrite Hpath. cbv zeta.
  rewrite unrouted_cleanPath, !unrouted_matchOrRedirect, String.eqb_refl.
  now destruct (Http.Method r =? "CONNECT").
Qed.

(** X14.  A path that no pattern of [main] names ends in the catch-all
    handler, which serves the index for the root only: when the gate does
    not answer itself, a request of any method for a clean path whose
    elements are not [info], [healthz] or [api/photos] and do not start
    with [static] or [photos] gets status 404 with the plain-text body
    [404 page not found], the security headers, and the bytes of no
    file. *)
Theorem unrouted_path_is_404 token r :
  gateReplies token r = false ->
  Http.Path (Http.Url r) = render l ->
  let resp := respond (serverHandler env staticFS TypeByExtension token dir) r in
  Http.RespStatus resp = Http.StatusNotFound
  /\ Http.RespBody resp
     = [Http.Bytes ("404 page not found" ++ String "010"%char "")]
  /\ Http.Get (Http.RespHeader resp) "Content-Type" = "text/plain; charset=utf-8"
  /\ carries (Http.RespHeader resp)
  /\ servedFiles resp = [].
Proof.
  intros Hgate Hpath. cbv zeta.
  rewrite (serverHandler_passes env staticFS TypeByExtension token dir r Hgate).
  assert (respond (securityHeaders (Http.ServeHTTP mux)) r
          = respond (securityHeaders Http.NotFound) r) as Hresp.
  { unfold respond, securityHeaders, Http.ServeHTTP.
    rewrite (unrouted_findHandler r Hpath). unfold handleRoot.
    rewrite Hpath, (render_root l elems).
    destruct unrouted_nonempty as (x & l' & ->). reflexivity. }
  split; [|split; [|split; [|split]]].
  - rewrite Hresp. reflexivity.
  - rewrite Hresp. reflexivity.
  - rewrite Hresp. reflexivity.
  - apply routing_carries.
  - rewrite Hresp. reflexivity.
Qed.

End UnroutedPaths.

Lemma unrouted_path_is_404_witness :
  let r := Sample.request "DELETE" "/api/photos/a.jpg" in
  let resp := respond (serverHandler (sorter := Sort.insertion) Sample.env
                         Sample.staticFS Sample.TypeByExtension "" "/photos") r in
  Http.RespStatus resp = Http.StatusNotFound
  /\ Http.RespBody resp
     = [Http.Bytes ("404 page not found" ++ String "010"%char "")]
  /\ Http.Get (Http.RespHeader resp) "Content-Type" = "text/plain; charset=utf-8"
  /\ carries (Http.RespHeader resp)
  /\ servedFiles resp = [].
Proof.
  apply (unrouted_path_is_404 (sorter := Sort.insertion) Sample.env Sample.staticFS
           Sample.TypeByExtension "/photos" ["api"; "photos"; "a.jpg"]).
  - repeat constructor.
  - reflexivity.
  - reflexivity.
  - reflexivity.
Defined.

(** ** The page of the gate *)

Lemma Replace_untouched pairs s :
  Forall (fun c => Forall (fun kv => c <> fst kv) pairs) (bytesOf s) ->
  Strings.Replace pairs s = s.
Proof.
  unfold bytesOf. induction s as [|c s IH]; [reflexivity|].
  simpl. intros H. inversion H as [|? ? Hc Hs]; subst.
  rewrite (IH Hs). clear IH H Hs.
  induction pairs as [|[k v] pairs IH]; [reflexivity|].
  inversion Hc as [|? ? Hk Hrest]; subst. cbn [Strings.lookupByte].
  rewrite (proj2 (Ascii.eqb_neq c k) Hk). now apply IH.
Qed.

(** X15.  With a token configured, a request to a path other than
    [/healthz] that presents no matching query token, cookie or bearer
    token never reaches the wrapped handler: whatever that handler is, the
    reply has status 401, the HTML content type, [Cache-Control: no-store],
    no cookie and no redirect target, and its body is the fixed page with
    the escaped path of the request put in.  No byte of the escaped path
    opens or closes markup or an attribute value, and a path without [&],
    [<], [>] and quotes is shown as it is. *)
Theorem unauthorized_page_escapes_path token r :
  token <> "" ->
  Http.Path (Http.Url r) <> "/healthz" ->
  presentsQueryToken token r = false ->
  presentsCookie token r = false ->
  presentsBearer token r = false ->
  forall next,
    let resp := respond (authMiddleware token next) r in
    Http.RespStatus resp = Http.StatusUnauthorized
    /\ Http.Get (Http.RespHeader resp) "Content-Type" = "text/html; charset=utf-8"
    /\ Http.Get (Http.RespHeader resp) "Cache-Control" = "no-store"
    /\ Http.RespCookies resp = []
    /\ Http.RespLocation resp = None
    /\ exists shown,
         Http.RespBody resp
         = [Http.Bytes (unauthorizedPageHead ++ shown ++ unauthorizedPageTail)]
         /\ Forall (fun c => c <> "<"%char /\ c <> ">"%char
                             /\ c <> "034"%char /\ c <> "'"%char)
                   (bytesOf shown)
         /\ (Forall (fun c => c <> "&"%char /\ c <> "<"%char /\ c <> ">"%char
                              /\ c <> "034"%char /\ c <> "'"%char)
                    (bytesOf (Http.Path (Http.Url r))) ->
             shown = Http.Path (Http.Url r)).
Proof.
  intros Htoken Hpath Hquery Hcookie Hbearer next. cbv zeta.
  rewrite (respond_authMiddleware token Htoken r Hpath), Hquery, Hcookie, Hbearer.
  cbn [orb]. repeat (split; [reflexivity|]).
  exists (htmlEscape (Http.Path (Http.Url r))).
  split; [reflexivity|]. split; [apply htmlEscape_bytes|].
  intros Hplain. apply Replace_untouched.
  eapply Forall_impl; [|exact Hplain]. cbn beta.
  intros c (Hamp & Hlt & Hgt & Hdq & Hsq). repeat constructor; assumption.
Qed.

Lemma unauthorized_page_escapes_path_witness :
  let resp := respond (authMiddleware "s3cret" Http.NotFound)
                      (Sample.request "GET" "/<b>") in
  Http.RespStatus resp = Http.StatusUnauthorized
  /\ Http.RespCookies resp = []
  /\ Http.RespBody resp
     = [Http.Bytes (unauthorizedPageHead ++ "/&lt;b&gt;" ++ unauthorizedPageTail)].
Proof.
  destruct (unauthorized_page_escapes_path "s3cret" (Sample.request "GET" "/<b>"))
    with (next := Http.NotFound)
    as (Hstatus & _ & _ & Hcookies & _ & shown & Hbody & _ & _);
    try reflexivity; try discriminate.
  split; [exact Hstatus|]. split; [exact Hcookies|]. reflexivity.
Defined.

(** ** The two pages *)

Section Pages.

Context {sorter : Sort.Sorter}.
Variable env : Os.Env.
Variable staticFS : string -> option string.
Variable TypeByExtension : string -> string.
Variable dir : string.

Lemma ServeHTTP_root w r :
  Http.Path (Http.Url r) = "/" ->
  Http.ServeHTTP (routes env staticFS TypeByExtension dir) w r
  = handleRoot staticFS TypeByExtension w r.
Proof.
  intros Hp. unfold Http.ServeHTTP, Http.findHandler. rewrite Hp.
  now destruct (Http.Method r =? "CONNECT").
Qed.

Lemma ServeHTTP_info w r :
  Http.Path (Http.Url r) = "/info" ->
  Http.ServeHTTP (routes env staticFS TypeByExtension dir) w r
  = handleInfo staticFS TypeByExtension w r.
Proof.
  intros Hp. unfold Http.ServeHTTP, Http.findHandler. rewrite Hp.
  now destruct (Http.Method r =? "CONNECT").
Qed.

(** X16.  When the gate does not answer itself, the root path gets the
    embedded [index.html] for every method, and [/info] gets [info.html]
    for GET only: any other method, HEAD included, gets status 405 with
    [Allow: GET].  Both pages go out as HTML with [Cache-Control: no-store],
    whatever the content type the extension would give, and with status 404
    when the file is not embedded. *)
Theorem pages_served_fresh token r :
  gateReplies token r = false ->
  let resp := respond (serverHandler env staticFS TypeByExtension token dir) r in
  (Http.Path (Http.Url r) = "/" -> servesPage staticFS resp "static/index.html")
  /\ (Http.Path (Http.Url r) = "/info" ->
      if Http.Method r =? "GET" then servesPage staticFS resp "static/info.html"
      else Http.RespStatus resp = Http.StatusMethodNotAllowed
           /\ Http.Get (Http.RespHeader resp) "Allow" = "GET"
           /\ Http.RespBody resp
              = [Http.Bytes ("method not allowed" ++ String "010"%char "")]).
Proof.
  intros Hgate. cbv zeta.
  rewrite (serverHandler_passes env staticFS TypeByExtension token dir r Hgate).
  unfold respond, securityHeaders, servesPage. split; intros Hpath.
  - rewrite (ServeHTTP_root _ r Hpath). unfold handleRoot, serveEmbeddedFile.
    rewrite Hpath. cbn [String.eqb Ascii.eqb Bool.eqb negb].
    destruct (staticFS "static/index.html"); repeat split.
  - rewrite (ServeHTTP_info _ r Hpath). unfold handleInfo, serveEmbeddedFile.
    rewrite Hpath. change ("/info" =? "/info") with true. cbn [negb].
    unfold Http.MethodGet. destruct (Http.Method r =? "GET"); cbn [negb].
    + destruct (staticFS "static/info.html"); repeat split.
    + repeat split.
Qed.

End Pages.

Lemma pages_served_fresh_witness :
  let resp := respond (serverHandler (sorter := Sort.insertion) Sample.env
                         Sample.staticFS Sample.TypeByExtension "" "/photos")
                      (Sample.request "HEAD" "/info") in
  Http.RespStatus resp = Http.StatusMethodNotAllowed
  /\ Http.Get (Http.RespHeader resp) "Allow" = "GET"
  /\ Http.RespBody resp
     = [Http.Bytes ("method not allowed" ++ String "010"%char "")].
Proof.
  apply (pages_served_fresh (sorter := Sort.insertion) Sample.env Sample.staticFS
           Sample.TypeByExtension "/photos" "" (Sample.request "HEAD" "/info"));
    reflexivity.
Defined.

(** ** The slideshow script *)

Module AppFacts.

Import App.

Lemma item_in_range items i :
  (0 <= i < Z.of_nat (List.length items))%Z -> exists p, item items i = Some p.
Proof.
  intros Hi. unfold item.
  destruct (Z.ltb_spec i 0) as [Hneg|_]; [lia|].
  destruct (nth_error items (Z.to_nat i)) as [p|] eqn:Hnth; [eauto|].
  apply nth_error_None in Hnth. lia.
Qed.

Lemma len_pos st : photos st <> [] -> (0 < len st)%Z.
Proof. unfold len. destruct (photos st); [congruence|simpl; lia]. Qed.

Lemma len_empty st : photos st = [] -> len st = 0%Z.
Proof. unfold len. now intros ->. Qed.

Lemma showAt_empty st i : photos st = [] -> showAt st i = Ok st.
Proof. unfold showAt. now intros ->. Qed.

Lemma showAt_in_range st i :
  photos st <> [] -> (0 <= i < len st)%Z -> showAt st i = Ok (setIdx st i).
Proof.
  intros Hne Hi. unfold showAt. destruct (photos st) as [|p l] eqn:Hp; [congruence|].
  cbv zeta. destruct (item_in_range (photos (setIdx st i)) (idx (setIdx st i)))
    as [q ->]; [|reflexivity].
  simpl. unfold len in Hi. now rewrite Hp in *.
Qed.

Lemma setIdx_idx st : setIdx st (idx st) = st.
Proof. now destruct st. Qed.

Lemma signature_eqb_eq a b : signature_eqb a (Some b) = true <-> a = b.
Proof.
  unfold signature_eqb. revert b.
  induction a as [|[n m] a IH]; intros [|[n' m'] b]; simpl;
    try (split; [discriminate|congruence]); [tauto|].
  specialize (IH b). rewrite andb_true_iff in IH.
  rewrite !andb_true_iff, String.eqb_eq, Z.eqb_eq. split.
  - intros (Hl & (-> & ->) & Hall). f_equal. apply IH. auto.
  - intros [= -> -> ->]. destruct (proj2 IH eq_refl) as [Hl Hall]. auto.
Qed.

Section Script.

Variable shuffle : bool.

Local Abbreviation nextIndex := (nextIndex shuffle).
Local Abbreviation prevIndex := (prevIndex shuffle).
Local Abbreviation step := (step shuffle).
Local Abbreviation run := (run shuffle).
Local Abbreviation boot := (boot shuffle).
Local Abbreviation drawn := (drawn shuffle).
Local Abbreviation fair := (fair shuffle).
Local Abbreviation fairRun := (fairRun shuffle).
Local Abbreviation fairBoot := (fairBoot shuffle).

Lemma nextIndex_in_range st u :
  inRange st -> drawn st u -> photos st <> [] -> (0 <= nextIndex st u < len st)%Z.
Proof.
  intros [H0 Hr] Hu Hne. pose proof (len_pos st Hne) as Hlen.
  unfold App.nextIndex. destruct (photos st) eqn:Hp; [congruence|].
  destruct shuffle eqn:Hs.
  - apply Hu; [reflexivity|]. now rewrite Hp.
  - apply Z.rem_bound_pos; lia.
Qed.

Lemma prevIndex_in_range st u :
  inRange st -> drawn st u -> photos st <> [] -> (0 <= prevIndex st u < len st)%Z.
Proof.
  intros [H0 Hr] Hu Hne. pose proof (len_pos st Hne) as Hlen.
  unfold App.prevIndex. destruct (photos st) eqn:Hp; [congruence|].
  destruct shuffle eqn:Hs.
  - apply Hu; [reflexivity|]. now rewrite Hp.
  - apply Z.rem_bound_pos; lia.
Qed.

Lemma showAt_stable st i :
  stable st -> (photos st <> [] -> (0 <= i < len st)%Z) ->
  exists st', showAt st i = Ok st' /\ stable st'.
Proof.
  intros Hst Hi.
  assert (photos st = [] \/ photos st <> []) as [Hempty|Hne]
    by (destruct (photos st); [now left|now right]).
  - exists st. split; [now apply showAt_empty|exact Hst].
  - specialize (Hi Hne).
    exists (setIdx st i). split; [now apply showAt_in_range|].
    destruct Hst as [_ Hhash]. split; [|exact Hhash].
    split; [simpl; lia|right; exact (proj2 Hi)].
Qed.

Lemma refresh_stable st fetched :
  stable st -> timers st = true ->
  stable (refresh st fetched)
  /\ timers (refresh st fetched) = true
  /\ forall items, fetched = Some items ->
       signature (photos (refresh st fetched)) = signature items.
Proof.
  intros Hst Ht. destruct fetched as [items|]; [|split; [exact Hst|split; [exact Ht|discriminate]]].
  unfold refresh. cbv zeta.
  destruct (signature_eqb (signature items) (lastListHash st)) eqn:Hsig; cbn [negb].
  - split; [exact Hst|]. split; [exact Ht|]. intros ? [= <-].
    destruct Hst as [_ Hhash]. rewrite (Hhash Ht) in Hsig.
    apply signature_eqb_eq in Hsig. now symmetry.
  - set (st1 := setList st items (signature items)).
    set (st2 := if (len st1 <=? idx st1)%Z then setIdx st1 0%Z else st1).
    assert (photos st2 = items) as Hphotos by (unfold st2; now destruct (_ <=? _)%Z).
    assert (timers st2 = true) as Htimers by (unfold st2; now destruct (_ <=? _)%Z).
    assert (lastListHash st2 = Some (signature items)) as Hhash
      by (unfold st2; now destruct (_ <=? _)%Z).
    assert (len st2 = len st1) as Hlen
      by (unfold st2; now destruct (_ <=? _)%Z).
    assert (stable st2) as Hst2.
    { split; [|intros _; now rewrite Hphotos].
      destruct Hst as [[H0 _] _]. unfold inRange. rewrite Hlen. unfold st2.
      destruct (Z.leb_spec (len st1) (idx st1)) as [Hge|Hlt].
      - split; [simpl; lia|]. simpl. unfold len. simpl.
        destruct items; [now left|right; simpl; lia].
      - split; [exact H0|now right]. }
    destruct (showAt_stable st2 (idx st2) Hst2) as (st' & Hshow & Hst').
    { intros Hne. destruct Hst2 as [[H0 [Hempty|Hlt]] _]; [congruence|lia]. }
    rewrite Hshow. split; [exact Hst'|].
    assert (st' = st2) as ->.
    { destruct (photos st2) eqn:Hp.
      - rewrite showAt_empty in Hshow by exact Hp. congruence.
      - rewrite showAt_in_range, setIdx_idx in Hshow; [congruence|congruence|].
        destruct Hst2 as [[H0 [Hempty|Hlt]] _]; [congruence|lia]. }
    split; [exact Htimers|]. intros ? [= <-]. now rewrite Hphotos.
Qed.

Lemma step_stable st e :
  stable st -> fair st e -> exists st', step st e = Ok st' /\ stable st'.
Proof.
  intros Hst Hfair. destruct e as [u|u|u| |fetched]; cbn [App.step].
  - destruct (timers st); cbn [negb]; [|eauto].
    destruct (paused st); [eauto|].
    apply showAt_stable; [exact Hst|].
    intros Hne. apply nextIndex_in_range; [apply Hst|exact Hfair|exact Hne].
  - apply showAt_stable; [exact Hst|].
    intros Hne. apply nextIndex_in_range; [apply Hst|exact Hfair|exact Hne].
  - apply showAt_stable; [exact Hst|].
    intros Hne. apply prevIndex_in_range; [apply Hst|exact Hfair|exact Hne].
  - eexists. split; [reflexivity|]. exact Hst.
  - destruct (timers st) eqn:Ht; cbn [negb]; [|eauto].
    eexists. split; [reflexivity|]. now apply refresh_stable.
Qed.

Lemma boot_stable fetched u : fairBoot fetched u -> stable (boot fetched u).
Proof.
  intros Hfair. destruct fetched as [items|]; cbn [App.boot];
    [|split; [split; [simpl; lia|now left]|discriminate]].
  cbv zeta. cbn [photos setList].
  destruct items as [|p rest];
    [split; [split; [simpl; lia|now left]|discriminate]|].
  cbv iota. unfold App.pickStartIndex. cbn [photos setList]. cbv iota.
  remember (p :: rest) as items eqn:Hitems.
  assert (items <> []) as Hne by (subst items; discriminate).
  set (st := setIdx _ _).
  assert (photos st = items) as Hphotos by reflexivity.
  assert (0 <= idx st < len st)%Z as Hidx.
  { unfold len. rewrite Hphotos. unfold st. cbn [idx setIdx].
    destruct shuffle.
    - destruct Hfair as [Hu|Hempty]; [reflexivity|exact Hu|congruence].
    - subst items. simpl. lia. }
  rewrite showAt_in_range, setIdx_idx; [|now rewrite Hphotos|exact Hidx].
  split; [split; [apply Hidx|right; apply Hidx]|].
  intros _. reflexivity.
Qed.

Lemma run_stable events :
  forall st, stable st -> fairRun st events ->
    exists st', run st events = Ok st' /\ stable st'.
Proof.
  induction events as [|e events IH]; intros st Hst Hfair.
  - exists st. now split.
  - destruct Hfair as [Hfair Hrest].
    destruct (step_stable st e Hst Hfair) as (st1 & Hstep & Hst1).
    cbn [App.run]. rewrite Hstep in *. cbn [bind]. now apply IH.
Qed.

Lemma showAt_photos st i st' : showAt st i = Ok st' -> photos st' = photos st.
Proof.
  unfold showAt. destruct (photos st) eqn:Hp; [now intros [= <-]|].
  cbv zeta. destruct (item _ _); [|discriminate]. now intros [= <-].
Qed.

Lemma refresh_changed st items :
  signature_eqb (signature items) (lastListHash st) = false ->
  photos (refresh st (Some items)) = items.
Proof.
  intros Hsig. unfold refresh. cbv zeta. rewrite Hsig. cbn [negb].
  set (st2 := if (_ <=? _)%Z then _ else _).
  assert (photos st2 = items) as Hphotos by (unfold st2; now destruct (_ <=? _)%Z).
  destruct (showAt st2 (idx st2)) as [st'|msg] eqn:Hshow; [|exact Hphotos].
  now rewrite (showAt_photos _ _ _ Hshow).
Qed.

Lemma refresh_unchanged st items :
  lastListHash st = Some (signature items) -> refresh st (Some items) = st.
Proof.
  intros Hhash. unfold refresh. cbv zeta. rewrite Hhash.
  now rewrite (proj2 (signature_eqb_eq _ _) eq_refl).
Qed.

Lemma mod_next_prev i n : (0 <= i < n)%Z -> (((i + 1) mod n - 1 + n) mod n = i)%Z.
Proof.
  intros Hi. destruct (Z.eq_dec (i + 1) n) as [Heq|Hne].
  - rewrite Heq, Z.mod_same by lia. rewrite Z.mod_small; lia.
  - rewrite (Z.mod_small (i + 1)) by lia.
    replace (i + 1 - 1 + n)%Z with (i + 1 * n)%Z by lia.
    rewrite Z.mod_add by lia. apply Z.mod_small. lia.
Qed.

Lemma mod_prev_next i n : (0 <= i < n)%Z -> (((i - 1 + n) mod n + 1) mod n = i)%Z.
Proof.
  intros Hi. destruct (Z.eq_dec i 0) as [->|Hne].
  - rewrite (Z.mod_small (0 - 1 + n)) by lia.
    replace (0 - 1 + n + 1)%Z with n by lia. apply Z.mod_same. lia.
  - replace (i - 1 + n)%Z with (i - 1 + 1 * n)%Z by lia.
    rewrite Z.mod_add by lia. rewrite (Z.mod_small (i - 1)) by lia.
    replace (i - 1 + 1)%Z with i by lia. apply Z.mod_small. lia.
Qed.

End Script.

(** In ordered mode the two arrows and the timer move the index by one,
    round the list. *)
Lemma ordered_next st u :
  inRange st -> photos st <> [] ->
  showAt st (App.nextIndex false st u)
  = Ok (setIdx st ((idx st + 1) mod len st)%Z).
Proof.
  intros Hst Hne. pose proof (len_pos st Hne) as Hlen.
  rewrite showAt_in_range; [|exact Hne|apply (nextIndex_in_range false); [exact Hst| |exact Hne]].
  - unfold App.nextIndex. destruct (photos st); [congruence|].
    destruct Hst as [H0 _]. now rewrite Z.rem_mod_nonneg by lia.
  - intros Hs. discriminate Hs.
Qed.

Lemma ordered_prev st u :
  inRange st -> photos st <> [] ->
  showAt st (App.prevIndex false st u)
  = Ok (setIdx st ((idx st - 1 + len st) mod len st)%Z).
Proof.
  intros Hst Hne. pose proof (len_pos st Hne) as Hlen.
  rewrite showAt_in_range; [|exact Hne|apply (prevIndex_in_range false); [exact Hst| |exact Hne]].
  - unfold App.prevIndex. destruct (photos st); [congruence|].
    destruct Hst as [H0 _]. now rewrite Z.rem_mod_nonneg by lia.
  - intros Hs. discriminate Hs.
Qed.

Lemma setIdx_inRange st i :
  photos st <> [] -> (0 < len st)%Z -> inRange (setIdx st (i mod len st)%Z).
Proof.
  intros Hne Hlen. pose proof (Z.mod_pos_bound i (len st) Hlen).
  split; [simpl; lia|right; simpl; unfold len in *; simpl; lia].
Qed.

Lemma ordered_timers us :
  forall st,
    inRange st -> photos st <> [] -> timers st = true -> paused st = false ->
    App.run false st (map Timer us)
    = Ok (setIdx st ((idx st + Z.of_nat (List.length us)) mod len st)%Z).
Proof.
  induction us as [|u us IH]; intros st Hst Hne Ht Hp;
    pose proof (len_pos st Hne) as Hlen.
  - cbn [map App.run List.length]. rewrite Z.add_0_r.
    destruct Hst as [H0 [Hempty|Hlt]]; [congruence|].
    now rewrite Z.mod_small, setIdx_idx by lia.
  - cbn [map App.run App.step]. rewrite Ht, Hp. cbn [negb].
    rewrite (ordered_next st u Hst Hne). cbn [bind].
    rewrite IH; [|now apply setIdx_inRange|exact Hne|exact Ht|exact Hp].
    unfold setIdx at 1. unfold len at 1 3. cbn [photos idx paused lastListHash timers setIdx].
    fold (len st). rewrite Z.add_mod_idemp_l by lia.
    unfold setIdx. do 3 f_equal. cbn [List.length]. lia.
Qed.

End AppFacts.

(** X17.  The slideshow never reads past its list.  From [boot] on, with
    every random draw an index of the list at hand, each timer tick, arrow
    key, space key and refresh runs without a [TypeError], and leaves the
    index on a photo of the current list unless the list is empty: a
    refresh that shortens the list resets an index that fell off its
    end. *)
Theorem slideshow_index_in_range shuffle fetched u events :
  App.fairBoot shuffle fetched u ->
  App.fairRun shuffle (App.boot shuffle fetched u) events ->
  exists st,
    App.run shuffle (App.boot shuffle fetched u) events = Ok st
    /\ (App.photos st = []
        \/ exists p, App.item (App.photos st) (App.idx st) = Some p).
Proof.
  intros Hboot Hrun.
  destruct (AppFacts.run_stable shuffle events _
              (AppFacts.boot_stable shuffle fetched u Hboot) Hrun)
    as (st & Hst & [[H0 [Hempty|Hlt]] _]).
  - exists st. split; [exact Hst|now left].
  - exists st. split; [exact Hst|right]. apply AppFacts.item_in_range.
    unfold App.len in Hlt. lia.
Qed.

Lemma slideshow_index_in_range_witness :
  exists st,
    App.run true (App.boot true (Some Sample.photos) 1)
      [App.Timer 0; App.ArrowLeft 1; App.Refreshed (Some (firstn 1 Sample.photos));
       App.Space; App.ArrowRight 0]
    = Ok st
    /\ (App.photos st = []
        \/ exists p, App.item (App.photos st) (App.idx st) = Some p).
Proof.
  apply (slideshow_index_in_range true (Some Sample.photos) 1).
  - intros _. left. vm_compute. split; [discriminate|reflexivity].
  - vm_compute. repeat split; intros; try discriminate; reflexivity.
Defined.

(** X18.  Once the timers run, the list on display follows the listing of
    the server.  After a refresh that fetched a listing, the photos on
    display have the names and mtimes of that listing; the state is left as
    it was when these are the names and mtimes already on display, the
    list is replaced otherwise, and a second refresh with the same listing
    changes nothing. *)
Theorem refresh_follows_listing shuffle fetched u events st :
  App.fairBoot shuffle fetched u ->
  App.fairRun shuffle (App.boot shuffle fetched u) events ->
  App.run shuffle (App.boot shuffle fetched u) events = Ok st ->
  App.timers st = true ->
  forall items,
    let st' := App.refresh st (Some items) in
    App.signature (App.photos st') = App.signature items
    /\ (App.signature items = App.signature (App.photos st) -> st' = st)
    /\ (App.signature items <> App.signature (App.photos st) ->
        App.photos st' = items)
    /\ App.refresh st' (Some items) = st'.
Proof.
  intros Hboot Hfair Hrun Htimers items. cbv zeta.
  destruct (AppFacts.run_stable shuffle events _
              (AppFacts.boot_stable shuffle fetched u Hboot) Hfair)
    as (st1 & Hrun1 & Hst).
  assert (st1 = st) as -> by congruence.
  destruct (AppFacts.refresh_stable st (Some items) Hst Htimers)
    as (Hst' & Htimers' & Hsig).
  pose proof (proj2 Hst Htimers) as Hhash.
  split; [now apply Hsig|]. split; [|split].
  - intros Heq. apply AppFacts.refresh_unchanged. now rewrite Hhash, Heq.
  - intros Hne. apply AppFacts.refresh_changed. rewrite Hhash.
    destruct (App.signature_eqb _ _) eqn:Heqb; [|reflexivity].
    apply AppFacts.signature_eqb_eq in Heqb. congruence.
  - apply AppFacts.refresh_unchanged.
    rewrite (proj2 Hst' Htimers'). f_equal. now apply Hsig.
Qed.

Lemma refresh_follows_listing_witness :
  let st := App.boot false (Some Sample.photos) 0 in
  let st' := App.refresh st (Some (firstn 1 Sample.photos)) in
  App.signature (App.photos st') = App.signature (firstn 1 Sample.photos)
  /\ App.refresh st' (Some (firstn 1 Sample.photos)) = st'.
Proof.
  destruct (refresh_follows_listing false (Some Sample.photos) 0 []
              (App.boot false (Some Sample.photos) 0))
    with (items := firstn 1 Sample.photos) as (Hsig & _ & _ & Hagain).
  - intros Hs. discriminate Hs.
  - exact I.
  - reflexivity.
  - reflexivity.
  - split; [exact Hsig|exact Hagain].
Defined.

(** X19.  In ordered mode the slideshow walks the list round.  With the
    index on a photo, the right arrow followed by the left arrow, or the
    left followed by the right, leaves the state as it was; and with the
    timers running and the show not paused, a number of ticks moves the
    index forward by that number modulo the length of the list, so that as
    many ticks as there are photos bring it back. *)
Theorem ordered_slideshow_cycles st :
  App.inRange st -> App.photos st <> [] ->
  (forall u v,
     App.run false st [App.ArrowRight u; App.ArrowLeft v] = Ok st
     /\ App.run false st [App.ArrowLeft u; App.ArrowRight v] = Ok st)
  /\ (App.timers st = true -> App.paused st = false ->
      forall us,
        App.run false st (map App.Timer us)
        = Ok (App.setIdx st ((App.idx st + Z.of_nat (List.length us))
                             mod App.len st)%Z)
        /\ (List.length us = List.length (App.photos st) ->
            App.run false st (map App.Timer us) = Ok st)).
Proof.
  intros Hst Hne. pose proof (AppFacts.len_pos st Hne) as Hlen.
  assert (0 <= App.idx st < App.len st)%Z as Hidx
    by (destruct Hst as [H0 [Hempty|Hlt]]; [congruence|lia]).
  split.
  - intros u v. split; cbn [App.run App.step].
    + rewrite (AppFacts.ordered_next st u Hst Hne). cbn [bind].
      rewrite AppFacts.ordered_prev;
        [|now apply AppFacts.setIdx_inRange|exact Hne].
      cbn [bind]. unfold App.len. cbn [App.setIdx App.idx App.photos].
      fold (App.len st). rewrite (AppFacts.mod_next_prev _ _ Hidx).
      f_equal. now destruct st.
    + rewrite (AppFacts.ordered_prev st u Hst Hne). cbn [bind].
      rewrite AppFacts.ordered_next;
        [|now apply AppFacts.setIdx_inRange|exact Hne].
      cbn [bind]. unfold App.len. cbn [App.setIdx App.idx App.photos].
      fold (App.len st). rewrite (AppFacts.mod_prev_next _ _ Hidx).
      f_equal. now destruct st.
  - intros Ht Hp us. rewrite (AppFacts.ordered_timers us st Hst Hne Ht Hp).
    split; [reflexivity|]. intros Hus. rewrite Hus. fold (App.len st).
    replace (App.idx st + App.len st)%Z with (App.idx st + 1 * App.len st)%Z by lia.
    rewrite Z.mod_add, Z.mod_small by lia. f_equal. now destruct st.
Qed.

Lemma ordered_slideshow_cycles_witness :
  let st := App.boot false (Some Sample.photos) 0 in
  App.run false st [App.ArrowLeft 0; App.ArrowRight 0] = Ok st
  /\ App.run false st (map App.Timer (map (fun _ => 0%Z) Sample.photos)) = Ok st.
Proof.
  destruct (ordered_slideshow_cycles (App.boot false (Some Sample.photos) 0))
    as [Harrows Hticks].
  - vm_compute. split; [discriminate|right; reflexivity].
  - discriminate.
  - split; [apply (Harrows 0%Z 0%Z)|].
    apply (Hticks eq_refl eq_refl). now rewrite length_map.
Defined.

(** X20.  Whatever the page is opened with, the slide interval is a whole
    number of seconds from 1 to 3600 and the refresh interval one from 5 to
    3600: a parameter that is missing or not a number gives the default,
    and one out of range, infinite ones included, the nearest bound, so
    that no timer is set with a zero, negative or undefined delay. *)
Theorem intervals_within_bounds parseInt params :
  exists s r,
    App.seconds parseInt params = App.Int s /\ (1 <= s <= 3600)%Z
    /\ App.refreshSeconds parseInt params = App.Int r /\ (5 <= r <= 3600)%Z.
Proof.
  unfold App.seconds, App.refreshSeconds, App.clampInt. cbv zeta.
  destruct (parseInt (params "seconds")) as [| |s|],
           (parseInt (params "refresh")) as [| |r|];
    cbn [App.isNaN App.mathMin App.mathMax];
    do 2 eexists; (split; [reflexivity|]); (split; [lia|]);
    (split; [reflexivity|lia]).
Qed.
